(** * QHGPT-ja chat client: conversation state, persistence and streaming

    A shallow embedding of [src/components/Generator.tsx] and of the settings
    defaults it shares with [src/components/Setting.tsx].

    The component keeps its state in SolidJS signals and in two browser
    facilities: [localStorage] and the [AbortController] objects it creates.
    Every handler of the component becomes a function on [State], which holds
    the signals together with the part of the browser the handlers touch.
    The asynchronous request function is cut at its [await]s: the code before
    the first [await] is [requestWithLatestMessage], and each later piece is the
    continuation that runs when the awaited promise settles.

    Modelling choices:
    - a history object is a finite map from role identifiers to message
      lists; identifiers that name members of [Object.prototype] are left out
      of account;
    - a stored text is told apart by what [JSON.parse] makes of it, and a
      text that parses gives a value of the type the code declares for it;
    - [structuredClone] copies, so on values it is the identity; the code
      changes no array in place but the copy it shifts;
    - a continuation of the request runs as soon as its promise settles, so
      each handler and each continuation is one uninterrupted step.

    Not modelled: the DOM references ([inputRef], the Swiper widget), the JSX
    view but for the conditions it computes, the download that carries the
    Markdown export, and a store that refuses a write for lack of space. *)

From Stdlib Require Import ZArith String Ascii List Bool Lia.
From stdpp Require Import base gmap strings list fin_maps.

Local Open Scope string_scope.
Local Open Scope list_scope.
Local Open Scope nat_scope.

(** ** JavaScript strings and arrays *)

Module Js.

(** Strings are byte strings holding UTF-8 text.  On well-formed text a
    search for a substring finds the same occurrences on the bytes as on the
    code units JavaScript compares. *)

(** ['\n'] *)
Definition newline : string := String (ascii_of_nat 10) EmptyString.

(** A string in a condition: the empty string is falsy. *)
Definition truthy (s : string) : bool := negb (String.eqb s "").

(** [s.includes(search)] *)
Fixpoint includes (s search : string) : bool :=
  String.prefix search s ||
  match s with
  | EmptyString => false
  | String _ rest => includes rest search
  end.

(** [s.endsWith(search)]: compares the last [search.length] characters. *)
Definition endsWith (s search : string) : bool :=
  let len := String.length s in
  let searchLength := String.length search in
  if (len <? searchLength)%nat then false
  else String.eqb (substring (len - searchLength) searchLength s) search.

(** Index arithmetic of [Array.prototype.slice]: a negative index counts
    from the end, and the result is clamped to [0 .. len]. *)
Definition relative_index (len : nat) (i : Z) : nat :=
  if (i <? 0)%Z then Z.to_nat (Z.max (Z.of_nat len + i) 0)
  else Z.to_nat (Z.min i (Z.of_nat len)).

(** [l.slice(start, end)]; [end_ = None] is the call with one argument. *)
Definition slice {A} (start : Z) (end_ : option Z) (l : list A) : list A :=
  let len := length l in
  let k := relative_index len start in
  let final := from_option (relative_index len) len end_ in
  take (final - k) (drop k l).

(** An [Error] object, as far as the code looks at it. *)
Record Error := mkError { name : string; message : string }.

(** [new Error(message)] *)
Definition new_Error (message : string) : Error :=
  {| name := "Error"; message := message |}.

(** Values of the fields of the settings object. *)
Inductive Value :=
| Str (s : string)
| Num (n : Z).

#[global] Instance Value_eq_dec : EqDecision Value.
Proof. solve_decision. Defined.

(** A plain object: its own properties. *)
Abbreviation Object := (gmap string Value).

(** [{...a, ...b}]: the properties of [b] win. *)
Definition spread (a b : Object) : Object := b ∪ a.

(** The text stored under a [localStorage] key, as [JSON.parse] sees it:
    either the serialization [JSON.stringify v] of a value of the type the
    code declares for that key, which [JSON.parse] gives back, or some other
    text [raw] (the empty string included) that [JSON.parse] rejects with a
    [SyntaxError]. *)
Inductive Text (A : Type) :=
| Json (v : A)
| NotJson (raw : string).
Arguments Json {A} v.
Arguments NotJson {A} raw.

(** A stored text in a condition. [JSON.stringify] never gives the empty
    string. *)
Definition text_truthy {A} (t : Text A) : bool :=
  match t with
  | Json _ => true
  | NotJson raw => truthy raw
  end.

(** [JSON.parse(t)]: the value, or [None] when it throws. *)
Definition JSON_parse {A} (t : Text A) : option A :=
  match t with
  | Json v => Some v
  | NotJson _ => None
  end.

Definition JSON_stringify {A} (v : A) : Text A := Json v.

End Js.

(** ** Data model *)

(** Modelled from the spec: the [ChatMessage] type of ['@/types'], which is
    not among the sources; a speaker tag out of a fixed enumeration and a text. *)
Inductive Speaker := user | assistant | system.

#[global] Instance Speaker_eq_dec : EqDecision Speaker.
Proof. solve_decision. Defined.

Module ChatMessage.
Record t := mk { role : Speaker; content : string }.
End ChatMessage.
Abbreviation ChatMessage := ChatMessage.t.

#[global] Instance ChatMessage_eq_dec : EqDecision ChatMessage.
Proof. solve_decision. Defined.

Module Role.
(** [fc] is the "first chat", the welcome text. *)
Record t := mk { role : string; avatar : string; fc : string }.
End Role.
Abbreviation Role := Role.t.

(** [Record<string, ChatMessage[]>] *)
Abbreviation History := (gmap string (list ChatMessage)).

(** The body of a [POST /api/generate]. *)
Record RequestBody := mkRequestBody {
  body_setting : Js.Object;
  body_messages : list ChatMessage;
  body_time : Z
}.

(** What the code writes to the console. *)
Inductive Diag :=
| ConsoleError (text : string)
| ConsoleLog (text : string).

(** The two keys of [localStorage] the client uses. *)
Record LocalStorage := mkLocalStorage {
  chat_history_item : option (Js.Text History);  (* CHAT_HISTORY_KEY *)
  setting_item : option (Js.Text Js.Object)      (* "setting" *)
}.

(** The signals of the component and the browser state its handlers touch.
    [controller] refers to an [AbortController] by its position in
    [abortControllers], which records for each controller created so far
    whether its signal is aborted. *)
Record State := mkState {
  messageList : list ChatMessage;
  currentAssistantMessage : string;
  loading : bool;
  controller : option nat;
  currentRole : option Role;
  roles : list Role;
  setting : Js.Object;
  abortControllers : list bool;
  localStorage : LocalStorage;
  console : list Diag;
  posted : list RequestBody
}.

Definition setMessageList (v : list ChatMessage) (s : State) : State :=
  mkState v (currentAssistantMessage s) (loading s) (controller s)
    (currentRole s) (roles s) (setting s) (abortControllers s)
    (localStorage s) (console s) (posted s).

Definition setCurrentAssistantMessage (v : string) (s : State) : State :=
  mkState (messageList s) v (loading s) (controller s)
    (currentRole s) (roles s) (setting s) (abortControllers s)
    (localStorage s) (console s) (posted s).

Definition setLoading (v : bool) (s : State) : State :=
  mkState (messageList s) (currentAssistantMessage s) v (controller s)
    (currentRole s) (roles s) (setting s) (abortControllers s)
    (localStorage s) (console s) (posted s).

Definition setController (v : option nat) (s : State) : State :=
  mkState (messageList s) (currentAssistantMessage s) (loading s) v
    (currentRole s) (roles s) (setting s) (abortControllers s)
    (localStorage s) (console s) (posted s).

Definition setCurrentRole (v : option Role) (s : State) : State :=
  mkState (messageList s) (currentAssistantMessage s) (loading s) (controller s)
    v (roles s) (setting s) (abortControllers s)
    (localStorage s) (console s) (posted s).

Definition setRoles (v : list Role) (s : State) : State :=
  mkState (messageList s) (currentAssistantMessage s) (loading s) (controller s)
    (currentRole s) v (setting s) (abortControllers s)
    (localStorage s) (console s) (posted s).

Definition setSetting (v : Js.Object) (s : State) : State :=
  mkState (messageList s) (currentAssistantMessage s) (loading s) (controller s)
    (currentRole s) (roles s) v (abortControllers s)
    (localStorage s) (console s) (posted s).

Definition with_abortControllers (v : list bool) (s : State) : State :=
  mkState (messageList s) (currentAssistantMessage s) (loading s) (controller s)
    (currentRole s) (roles s) (setting s) v
    (localStorage s) (console s) (posted s).

Definition with_localStorage (v : LocalStorage) (s : State) : State :=
  mkState (messageList s) (currentAssistantMessage s) (loading s) (controller s)
    (currentRole s) (roles s) (setting s) (abortControllers s)
    v (console s) (posted s).

Definition with_console (v : list Diag) (s : State) : State :=
  mkState (messageList s) (currentAssistantMessage s) (loading s) (controller s)
    (currentRole s) (roles s) (setting s) (abortControllers s)
    (localStorage s) v (posted s).

Definition with_posted (v : list RequestBody) (s : State) : State :=
  mkState (messageList s) (currentAssistantMessage s) (loading s) (controller s)
    (currentRole s) (roles s) (setting s) (abortControllers s)
    (localStorage s) (console s) v.

(** ** Browser facilities *)

Definition console_error (text : string) (s : State) : State :=
  with_console (console s ++ [ConsoleError text]) s.

Definition console_log (text : string) (s : State) : State :=
  with_console (console s ++ [ConsoleLog text]) s.

(** [new AbortController()]: a fresh controller, not aborted. *)
Definition new_AbortController (s : State) : nat * State :=
  (length (abortControllers s),
   with_abortControllers (abortControllers s ++ [false]) s).

(** [c.abort()] *)
Definition abort (c : nat) (s : State) : State :=
  with_abortControllers (<[c := true]> (abortControllers s)) s.

(** [controller()?.abort()] *)
Definition abort_controller (s : State) : State :=
  match controller s with
  | Some c => abort c s
  | None => s
  end.

(** [controller()?.signal.aborted], in a condition: [undefined] is falsy. *)
Definition controller_aborted (s : State) : bool :=
  match controller s with
  | Some c => default false (abortControllers s !! c)
  | None => false
  end.

(** [fetch('/api/generate', { method: 'POST', body, signal })] is issued. *)
Definition post (body : RequestBody) (s : State) : State :=
  with_posted (posted s ++ [body]) s.

(** [structuredClone]: a deep copy; on values it is the identity. *)
Definition structuredClone {A} (v : A) : A := v.

(** ** Persistence adapter *)

(** [loadChatHistory]: the stored text is parsed only when it is truthy; a
    parse that throws is reported on the console and gives [{}]. *)
Definition loadChatHistory (s : State) : History * State :=
  match chat_history_item (localStorage s) with
  | None => (∅, s)
  | Some history =>
      if Js.text_truthy history then
        match Js.JSON_parse history with
        | Some parsed => (parsed, s)
        | None => (∅, console_error "解析聊天记录失败:" s)
        end
      else (∅, s)
  end.

(** [saveChatHistory]: one [setItem] of the whole map. *)
Definition saveChatHistory (history : History) (s : State) : State :=
  with_localStorage
    {| chat_history_item := Some (Js.JSON_stringify history);
       setting_item := setting_item (localStorage s) |} s.

Definition saveCurrentMessages (roleToSave : Role)
    (messagesToSave : list ChatMessage) (s : State) : State :=
  let '(history, s1) := loadChatHistory s in
  saveChatHistory (<[Role.role roleToSave := structuredClone messagesToSave]> history) s1.

(** ** Settings *)

Definition defaultSetting : Js.Object :=
  {[ "openaiAPIKey" := Js.Str "";
     "customRule" := Js.Str "";
     "openaiAPITemperature" := Js.Num 70 ]}.

(** The first statements of [onMount]: the stored settings, when present and
    parsable, are spread over the defaults. *)
Definition loadSetting (s : State) : State :=
  match setting_item (localStorage s) with
  | None => s
  | Some storage =>
      if Js.text_truthy storage then
        match Js.JSON_parse storage with
        | Some parsed => setSetting (Js.spread defaultSetting parsed) s
        | None => console_log "Setting parse error" s
        end
      else s
  end.

(** [handleProviderChange] of the settings panel. *)
Definition handleProviderChange (provider : string) (s : State) : State :=
  setSetting (Js.spread (setting s) {[ "modelProvider" := Js.Str provider ]}) s.

(** The providers of the [ModelProvider] type. *)
Definition ModelProvider : list string := ["siliconflow"; "302ai"].

(** The radio button of [provider] is checked. *)
Definition provider_checked (provider : string) (st : Js.Object) : bool :=
  bool_decide (st !! "modelProvider" = Some (Js.Str provider)).

(** The state of the component when it is created. *)
Definition initial (ls : LocalStorage) : State :=
  {| messageList := [];
     currentAssistantMessage := "";
     loading := false;
     controller := None;
     currentRole := None;
     roles := [];
     setting := Js.spread ∅ defaultSetting;
     abortControllers := [];
     localStorage := ls;
     console := [];
     posted := [] |}.

(** ** Conversation state manager *)

Definition welcome (r : Role) : ChatMessage :=
  {| ChatMessage.role := assistant; ChatMessage.content := Role.fc r |}.

Definition handleRoleChange (newRole : Role) (initialHistory : option History)
    (s : State) : State :=
  let s1 :=
    match currentRole s with
    | Some oldRole =>
        if decide (Role.role oldRole ≠ Role.role newRole)
        then saveCurrentMessages oldRole (messageList s) s
        else s
    | None => s
    end in
  let s2 := setCurrentRole (Some newRole) s1 in
  let '(history, s3) :=
    match initialHistory with
    | Some h => (h, s2)
    | None => loadChatHistory s2
    end in
  let s4 :=
    match history !! Role.role newRole with
    | Some (m :: l) => setMessageList (m :: l) s3
    | _ =>
        let welcomeMessage := welcome newRole in
        let s3' := setMessageList [welcomeMessage] s3 in
        let '(newHistory, s3'') := loadChatHistory s3' in
        saveChatHistory (<[Role.role newRole := [welcomeMessage]]> newHistory) s3''
    end in
  setController None
    (abort_controller (setLoading false (setCurrentAssistantMessage "" s4))).

(** The [slideChange] handler of the carousel. *)
Definition slideChange (activeIndex : nat) (s : State) : State :=
  match roles s !! activeIndex with
  | Some newRole =>
      if decide (Some (Role.role newRole) ≠ Role.role <$> currentRole s)
      then handleRoleChange newRole None s
      else s
  | None => s
  end.

(** [onMount], given the roles the registry request returned. *)
Definition onMount (fetchedRoles : list Role) (s : State) : State :=
  let s1 := setRoles fetchedRoles (loadSetting s) in
  match fetchedRoles with
  | initialRole :: _ =>
      let '(history, s2) := loadChatHistory s1 in
      handleRoleChange initialRole (Some history) s2
  | [] => s1
  end.

Definition archiveCurrentMessage (s : State) : State :=
  match currentRole s with
  | Some role =>
      if Js.truthy (currentAssistantMessage s) then
        let newAssistantMessage :=
          {| ChatMessage.role := assistant;
             ChatMessage.content := currentAssistantMessage s |} in
        let newMessages := messageList s ++ [newAssistantMessage] in
        let s1 := saveCurrentMessages role newMessages (setMessageList newMessages s) in
        setController None (setLoading false (setCurrentAssistantMessage "" s1))
      else s
  | None => s
  end.

Definition clear (s : State) : State :=
  match currentRole s with
  | None => s
  | Some role =>
      let welcomeMessage := welcome role in
      saveCurrentMessages role [welcomeMessage]
        (setCurrentAssistantMessage "" (setMessageList [welcomeMessage] s))
  end.

(** ** Streaming request/response engine *)

(** The marker of a failed turn, U+26A0 U+FE0F (a warning sign in emoji
    presentation); in UTF-8 the six bytes E2 9A A0 EF B8 8F. *)
Definition errorMarker : string := "⚠️".

(** The messages of the request body, from the registry [rs], the active role
    [cur] and the current message list. *)
Definition requestMessageList (rs : list Role) (cur : Role)
    (messages : list ChatMessage) : list ChatMessage :=
  let requestMessageList := structuredClone messages in
  let initialWelcome :=
    Role.fc <$> List.find (λ r, bool_decide (Role.role r = Role.role cur)) rs in
  let requestMessageList :=
    match requestMessageList with
    | first :: rest =>
        if bool_decide (ChatMessage.role first = assistant)
           && bool_decide (Some (ChatMessage.content first) = initialWelcome)
        then rest  (* shift() *)
        else requestMessageList
    | [] => requestMessageList
    end in
  let requestMessageList :=
    List.filter (λ item, negb (Js.includes (ChatMessage.content item) errorMarker))
      requestMessageList in
  if (15 <? length requestMessageList)%nat
  then Js.slice 0 (Some 3%Z) requestMessageList ++ Js.slice (-12) None requestMessageList
  else requestMessageList.

(** [requestWithLatestMessage] up to its first [await]: the request is built
    and issued. [now] is what [Date.now()] returns. *)
Definition requestWithLatestMessage (now : Z) (s : State) : State :=
  match currentRole s with
  | None => s
  | Some cur =>
      let s1 := setCurrentAssistantMessage "" (setLoading true s) in
      let '(c, s2) := new_AbortController s1 in
      let s3 := setController (Some c) s2 in
      post {| body_setting :=
                Js.spread (setting s3) {[ "role" := Js.Str (Role.role cur) ]};
              body_messages := requestMessageList (roles s3) cur (messageList s3);
              body_time := now |} s3
  end.

(** The [catch] clause. *)
Definition request_catch (e : Js.Error) (s : State) : State :=
  if decide (Js.name e ≠ "AbortError") then
    setCurrentAssistantMessage ("出现错误：" +:+ Js.message e)
      (console_error (Js.message e) s)
  else s.

(** The [finally] clause. *)
Definition request_finally (s : State) : State :=
  if negb (controller_aborted s) then archiveCurrentMessage s else s.

(** Where the request function stands after a continuation has run. *)
Inductive Phase :=
| Reading    (* suspended at [await reader.read()] *)
| Returned.

(** An exception inside the [try] block. *)
Definition request_throw (e : Js.Error) (s : State) : Phase * State :=
  (Returned, request_finally (request_catch e s)).

(** How [await fetch(...)] settles: rejected, or resolved with a response of
    which the code reads the status, the status text and whether there is a
    body. *)
Inductive FetchResult :=
| FetchRejected (e : Js.Error)
| FetchResolved (status : Z) (statusText : string) (body : bool).

(** [response.ok] *)
Definition response_ok (status : Z) : bool :=
  (200 <=? status)%Z && (status <=? 299)%Z.

(** The continuation of [await fetch(...)]. *)
Definition fetchSettled (r : FetchResult) (s : State) : Phase * State :=
  match r with
  | FetchRejected e => request_throw e s
  | FetchResolved status statusText body =>
      if negb (response_ok status) then request_throw (Js.new_Error statusText) s
      else if negb body then request_throw (Js.new_Error "No data") s
      else (Reading, s)
  end.

(** How [await reader.read()] settles; [value] is the chunk as the decoder
    renders it. *)
Inductive ReadResult :=
| ReadRejected (e : Js.Error)
| ReadResolved (value : option string) (done : bool).

(** The continuation of [await reader.read()]: one turn of the loop. *)
Definition readSettled (r : ReadResult) (s : State) : Phase * State :=
  match r with
  | ReadRejected e => request_throw e s
  | ReadResolved value readerDone =>
      let next (s' : State) : Phase * State :=
        if readerDone then (Returned, request_finally s') else (Reading, s') in
      match value with
      | Some char =>
          if String.eqb char Js.newline
             && Js.endsWith (currentAssistantMessage s) Js.newline
          then (Reading, s)  (* continue *)
          else if Js.truthy char
          then next (setCurrentAssistantMessage (currentAssistantMessage s +:+ char) s)
          else next s
      | None => next s
      end
  end.

(** ** Handlers of the input controls *)

(** [inputValue] is the trimmed text of the input box. *)
Definition handleButtonClick (inputValue : string) (now : Z) (s : State) : State :=
  match currentRole s with
  | Some role =>
      if Js.truthy inputValue then
        let userMessage :=
          {| ChatMessage.role := user; ChatMessage.content := inputValue |} in
        let newMessages := messageList s ++ [userMessage] in
        requestWithLatestMessage now
          (saveCurrentMessages role newMessages (setMessageList newMessages s))
      else s
  | None => s
  end.

Definition stopStreamFetch (s : State) : State :=
  match controller s with
  | Some c => archiveCurrentMessage (abort c s)
  | None => s
  end.

Definition retryLastFetch (now : Z) (s : State) : State :=
  match currentRole s with
  | Some role =>
      if (0 <? length (messageList s))%nat then
        match messageList s !! (length (messageList s) - 1)%nat with
        | Some lastMessage =>
            if decide (ChatMessage.role lastMessage = assistant) then
              let newMessages := Js.slice 0 (Some (-1)%Z) (messageList s) in
              requestWithLatestMessage now
                (saveCurrentMessages role newMessages (setMessageList newMessages s))
            else s
        | None => s
        end
      else s
  | None => s
  end.

(** ** Runs of the component *)

(** What can happen to the component: a handler is called, or an awaited
    promise of the request function settles. *)
Inductive Event :=
| RoleChange (newRole : Role) (initialHistory : option History)
| SlideChange (activeIndex : nat)
| ButtonClick (inputValue : string) (now : Z)
| Archive
| Clear
| Stop
| Retry (now : Z)
| FetchSettled (r : FetchResult)
| ReadSettled (r : ReadResult).

Definition step (s : State) (e : Event) : State :=
  match e with
  | RoleChange newRole initialHistory => handleRoleChange newRole initialHistory s
  | SlideChange activeIndex => slideChange activeIndex s
  | ButtonClick inputValue now => handleButtonClick inputValue now s
  | Archive => archiveCurrentMessage s
  | Clear => clear s
  | Stop => stopStreamFetch s
  | Retry now => retryLastFetch now s
  | FetchSettled r => (fetchSettled r s).2
  | ReadSettled r => (readSettled r s).2
  end.

Definition run (s : State) (events : list Event) : State :=
  fold_left step events s.

(** The history as [loadChatHistory] would return it. *)
Definition persisted (s : State) : History := (loadChatHistory s).1.

(** ** What the statements speak of *)

(** A message of [speaker] with the content [text]. *)
Definition says (speaker : Speaker) (text : string) : ChatMessage :=
  {| ChatMessage.role := speaker; ChatMessage.content := text |}.

Definition active_id (s : State) : option string := Role.role <$> currentRole s.

(** [s'] has the role of [s], and differs from [s] in the store at most under
    the identifier of that role. *)
Definition confined (s s' : State) : Prop :=
  currentRole s' = currentRole s ∧
  ∀ id, active_id s ≠ Some id → persisted s' !! id = persisted s !! id.

(** The states a run passes through, the first and the last included. *)
Fixpoint visited (s : State) (events : list Event) : list State :=
  s :: match events with
       | [] => []
       | e :: rest => visited (step s e) rest
       end.

(** The history after the snapshot of the role that is left. *)
Definition after_snapshot (newRole : Role) (s : State) : History :=
  match currentRole s with
  | Some oldRole =>
      if decide (Role.role oldRole ≠ Role.role newRole)
      then <[Role.role oldRole := messageList s]> (persisted s)
      else persisted s
  | None => persisted s
  end.

(** The load has written an error to the console. *)
Definition reports_failure (s s' : State) : Prop :=
  ∃ text, console s' = console s ++ [ConsoleError text].

(** The failures of the transport a request can meet before the first chunk. *)
Inductive TransportFailure :=
| NonSuccessStatus (status : Z) (statusText : string)
| NetworkError (e : Js.Error)
| MissingBody (status : Z) (statusText : string).

(** How [await fetch(...)] settles for each of them. *)
Definition settles (f : TransportFailure) : FetchResult :=
  match f with
  | NonSuccessStatus status statusText => FetchResolved status statusText true
  | NetworkError e => FetchRejected e
  | MissingBody status statusText => FetchResolved status statusText false
  end.

(** The status of [NonSuccessStatus] is outside 200..299, the one of
    [MissingBody] inside; a network error is not an abort. *)
Definition is_failure (f : TransportFailure) : Prop :=
  match f with
  | NonSuccessStatus status _ => ¬ (200 ≤ status ≤ 299)%Z
  | NetworkError e => Js.name e ≠ "AbortError"
  | MissingBody status _ => (200 ≤ status ≤ 299)%Z
  end.

Definition failure_text (f : TransportFailure) : string :=
  match f with
  | NonSuccessStatus _ statusText => statusText
  | NetworkError e => Js.message e
  | MissingBody _ _ => "No data"
  end.

(** The fields the [Setting] interface of the settings panel declares
    without a question mark. *)
Definition required_fields : list string :=
  ["modelProvider"; "siliconflowAPIKey"; "threeohtwoAPIKey"; "customRule";
   "openaiAPITemperature"].

(** The provider selection and both keys are undefined in [st], so not every
    required field has a value, and no radio button is checked. *)
Definition lacks_provider (st : Js.Object) : Prop :=
  st !! "modelProvider" = None ∧
  st !! "siliconflowAPIKey" = None ∧
  st !! "threeohtwoAPIKey" = None ∧
  ¬ Forall (λ field, is_Some (st !! field)) required_fields ∧
  Forall (λ provider, provider_checked provider st = false) ModelProvider.

(** ** The request context as the specification words it *)

Module Spec.

(** [text] has [marker] somewhere in it. *)
Definition contains (text marker : string) : Prop :=
  ∃ before after, text = before +:+ marker +:+ after.

(** The welcome message of the role: the one made from the welcome text the
    registry holds for the identifier of the active role. *)
Definition role_welcome (rs : list Role) (cur : Role) : option ChatMessage :=
  welcome <$> head (filter (λ r, Role.role r = Role.role cur) rs).

(** (1) Drop a leading message that is exactly the welcome message. *)
Definition drop_leading_welcome (w : option ChatMessage)
    (l : list ChatMessage) : list ChatMessage :=
  match l with
  | m :: rest => if decide (Some m = w) then rest else l
  | [] => []
  end.

(** (2) Remove every message whose content contains the error marker. *)
Definition without_failed (l : list ChatMessage) : list ChatMessage :=
  filter (λ m, Js.includes (ChatMessage.content m) errorMarker = false) l.

Definition last_n {A} (n : nat) (l : list A) : list A :=
  reverse (take n (reverse l)).

(** (3) If more than 15 remain, keep the first 3 and the last 12. *)
Definition cap (l : list ChatMessage) : list ChatMessage :=
  if decide (15 < length l) then take 3 l ++ last_n 12 l else l.

Definition request_messages (rs : list Role) (cur : Role)
    (l : list ChatMessage) : list ChatMessage :=
  cap (without_failed (drop_leading_welcome (role_welcome rs cur) l)).

End Spec.

(** ** The stream as the specification words it *)

Module Stream.

(** The buffer ends in a newline. *)
Definition ends_in_newline (buffer : string) : Prop :=
  ∃ before, buffer = before +:+ Js.newline.

(** A chunk is appended, unless it is exactly a newline and the buffer
    already ends in one. *)
Definition append_chunk (buffer text : string) : string :=
  if decide (text = Js.newline ∧ Js.endsWith buffer Js.newline = true) then buffer
  else buffer +:+ text.

(** The chunks in the order of their arrival. *)
Definition accumulate (buffer : string) (texts : list string) : string :=
  fold_left append_chunk texts buffer.

End Stream.

(** The stream has no more chunks. *)
Definition end_of_stream : Event := ReadSettled (ReadResolved None true).

(** ** Sessions to try the statements on *)

Definition buddha : Role :=
  {| Role.role := "buddha"; Role.avatar := "/buddha.png"; Role.fc := "Welcome" |}.

(** A reading of the clock. *)
Definition noon : Z := 1700000000000.

(** A first visit: nothing is stored. *)
Definition first_visit : LocalStorage := mkLocalStorage None None.

(** The component is mounted with one role in the registry. *)
Definition fresh : State := onMount [buddha] (initial first_visit).

Definition ok_response : Event := FetchSettled (FetchResolved 200 "OK" true).

Definition chunk (text : string) : Event := ReadSettled (ReadResolved (Some text) false).

(** The user has said "hi" and the stream has delivered "partial answer" so
    far. *)
Definition mid_stream : State :=
  run fresh [ButtonClick "hi" noon; ok_response; chunk "partial answer"].

Definition AbortError : Js.Error :=
  {| Js.name := "AbortError"; Js.message := "The user aborted a request." |}.

Definition manjushri : Role :=
  {| Role.role := "manjushri"; Role.avatar := "/manjushri.png";
     Role.fc := "Ask, and look inside." |}.

(** A conversation of 19 messages behind the welcome message, one of them a
    failed turn. *)
Definition long_talk : State :=
  setMessageList
    (welcome buddha ::
     says user "q1" :: says assistant "a1" :: says user "q2" ::
     says assistant "⚠️ request failed" ::
     says user "q3" :: says assistant "a3" :: says user "q4" ::
     says assistant "a4" :: says user "q5" :: says assistant "a5" ::
     says user "q6" :: says assistant "a6" :: says user "q7" ::
     says assistant "a7" :: says user "q8" :: says assistant "a8" ::
     says user "q9" :: says assistant "a9" :: says user "q10" :: [])
    fresh.

(** The conversation with [buddha] is left mid-stream for [manjushri], who is
    asked a question and answers. *)
Definition with_manjushri : list Event :=
  [ButtonClick "who am I?" (noon + 1000); ok_response; chunk "Look.";
   ReadSettled (ReadResolved None true); Clear].

(** The stream of [mid_stream] has ended and its answer is archived. *)
Definition answered : State :=
  run mid_stream [end_of_stream].

(** A store whose history item is the empty string. *)
Definition empty_item : State :=
  initial {| chat_history_item := Some (Js.NotJson ""); setting_item := None |}.

(** A store whose history item was cut short. *)
Definition truncated_item : State :=
  initial {| chat_history_item := Some (Js.NotJson "{'buddha': [");
             setting_item := None |}.

(** Settings saved before the provider selection existed. *)
Definition older_settings : Js.Object :=
  {[ "openaiAPIKey" := Js.Str "sk-older";
     "customRule" := Js.Str "";
     "openaiAPITemperature" := Js.Num 60 ]}.

Definition older_store : LocalStorage :=
  {| chat_history_item := None;
     setting_item := Some (Js.JSON_stringify older_settings) |}.

(** ** The rest of the component *)

(** The effect on the settings (Generator.tsx, [createEffect]): whenever they
    change they are written back to the store. *)
Definition settingEffect (s : State) : State :=
  with_localStorage
    {| chat_history_item := chat_history_item (localStorage s);
       setting_item := Some (Js.JSON_stringify (setting s)) |} s.

(** The [onInput] handlers of the three text fields of the settings panel. *)
Definition onInput_siliconflowAPIKey (value : string) (s : State) : State :=
  setSetting (Js.spread (setting s) {[ "siliconflowAPIKey" := Js.Str value ]}) s.

Definition onInput_threeohtwoAPIKey (value : string) (s : State) : State :=
  setSetting (Js.spread (setting s) {[ "threeohtwoAPIKey" := Js.Str value ]}) s.

Definition onInput_customRule (value : string) (s : State) : State :=
  setSetting (Js.spread (setting s) {[ "customRule" := Js.Str value ]}) s.

(** The key input of [provider] is shown. *)
Definition key_input_shown (provider : string) (s : State) : bool :=
  provider_checked provider (setting s).

(** What [handleKeydown] reads of a keyboard event. *)
Record KeyboardEvent := mkKeyboardEvent {
  isComposing : bool;
  shiftKey : bool;
  key : string
}.

(** [inputValue] is the trimmed text of the input box, as for
    [handleButtonClick]. *)
Definition handleKeydown (e : KeyboardEvent) (inputValue : string) (now : Z)
    (s : State) : State :=
  if isComposing e || shiftKey e then s
  else if String.eqb (key e) "Enter" then handleButtonClick inputValue now s
  else s.

(** The [showRetry] condition the view hands to the message at [index]. *)
Definition showRetry (index : nat) (s : State) : bool :=
  match messageList s !! index with
  | Some message =>
      bool_decide (ChatMessage.role message = assistant)
      && (Z.of_nat index =? Z.of_nat (length (messageList s)) - 1)%Z
      && negb (loading s)
  | None => false
  end.

(** The tag of a speaker as a string. *)
Definition speaker_tag (speaker : Speaker) : string :=
  match speaker with
  | user => "user"
  | assistant => "assistant"
  | system => "system"
  end.

(** What [exportToMarkdown] offers for download: the name of the file and its
    text. *)
Record Download := mkDownload {
  download : string;
  markdown : string
}.

(** One line of the export. *)
Definition markdownLine (role : Role) (message : ChatMessage) : string :=
  if decide (ChatMessage.role message = assistant)
  then "**" +:+ Role.role role +:+ ":** " +:+ ChatMessage.content message
  else if decide (ChatMessage.role message = user)
  then "**善知识:** " +:+ ChatMessage.content message
  else "**" +:+ speaker_tag (ChatMessage.role message) +:+ ":** "
       +:+ ChatMessage.content message.

(** [exportToMarkdown]: nothing without a role or without messages. *)
Definition exportToMarkdown (s : State) : option Download :=
  match currentRole s with
  | None => None
  | Some role =>
      if length (messageList s) =? 0 then None
      else
        let markdownLines := markdownLine role <$> messageList s in
        let markdown := String.concat (Js.newline +:+ Js.newline) markdownLines in
        Some {| download := Role.role role +:+ "-对话记录.md"; markdown := markdown |}
  end.

(** ** What the further statements speak of *)

(** The message list is what is persisted for the active role. *)
Definition synced (s : State) : Prop :=
  ∀ r, currentRole s = Some r → persisted s !! Role.role r = Some (messageList s).

(** A switch that is handed a history, as [onMount] alone does. *)
Definition seeded (e : Event) : Prop :=
  match e with
  | RoleChange _ (Some _) => True
  | _ => False
  end.

(** A switch of the role, by either way. *)
Definition is_switch (e : Event) : Prop :=
  match e with
  | RoleChange _ _ | SlideChange _ => True
  | _ => False
  end.

(** An awaited promise of the request function settles. *)
Definition is_continuation (e : Event) : Prop :=
  match e with
  | FetchSettled _ | ReadSettled _ => True
  | _ => False
  end.

(** A request body within the bounds of the request construction. *)
Definition bounded_request (body : RequestBody) : Prop :=
  length (body_messages body) ≤ 15 ∧
  Forall (λ m, Js.includes (ChatMessage.content m) errorMarker = false)
    (body_messages body).

(** The state a next visit starts from, with the store as [s] leaves it. *)
Definition next_visit (s : State) : State := initial (localStorage s).

(** [s'] has the registry, the settings, the requests issued and the
    controllers of [s]. *)
Definition same_rest (s s' : State) : Prop :=
  roles s' = roles s ∧
  setting s' = setting s ∧
  posted s' = posted s ∧
  abortControllers s' = abortControllers s ∧
  controller s' = controller s.

(** A send or a retry: the handlers that issue a request. *)
Definition issues_request (e : Event) : Prop :=
  match e with
  | ButtonClick _ _ | Retry _ => True
  | _ => False
  end.

(** An event of the controls of the view (slide, send, clear, stop, retry),
    or an archive. *)
Definition from_controls (e : Event) : Prop :=
  match e with
  | RoleChange _ _ | FetchSettled _ | ReadSettled _ => False
  | _ => True
  end.

(** The label of a speaker in the export. *)
Definition speaker_label (role : Role) (speaker : Speaker) : string :=
  match speaker with
  | assistant => Role.role role
  | user => "善知识"
  | system => "system"
  end.

(** * Properties *)

(** ** Strings *)

Lemma truthy_false_iff (s : string) : Js.truthy s = false ↔ s = "".
Proof.
  unfold Js.truthy. destruct (String.eqb_spec s ""); simpl; split; congruence.
Qed.

Lemma truthy_true_iff (s : string) : Js.truthy s = true ↔ s ≠ "".
Proof.
  unfold Js.truthy. destruct (String.eqb_spec s ""); simpl; split; congruence.
Qed.

(** ** Persistence: what a save leaves behind *)

Section Persistence.

Implicit Types (s : State) (h : History) (r : Role) (l : list ChatMessage).

Lemma loadChatHistory_saveChatHistory h s :
  loadChatHistory (saveChatHistory h s) = (h, saveChatHistory h s).
Proof. reflexivity. Qed.

(** Loading changes nothing but the console. *)
Lemma loadChatHistory_state s :
  (loadChatHistory s).2 = s ∨
  (loadChatHistory s).2 = console_error "解析聊天记录失败:" s.
Proof.
  unfold loadChatHistory.
  destruct (chat_history_item (localStorage s)) as [[v|raw]|]; simpl; auto.
  destruct (Js.truthy raw); auto.
Qed.

(** What is persisted depends on the store alone. *)
Lemma persisted_ext s s' :
  localStorage s = localStorage s' → persisted s = persisted s'.
Proof.
  intros E. unfold persisted, loadChatHistory. rewrite E.
  destruct (chat_history_item (localStorage s')) as [[v|raw]|]; simpl; auto.
  destruct (Js.truthy raw); auto.
Qed.

Lemma persisted_console_error text s :
  persisted (console_error text s) = persisted s.
Proof. by apply persisted_ext. Qed.

Lemma persisted_saveChatHistory h s : persisted (saveChatHistory h s) = h.
Proof. reflexivity. Qed.

Lemma persisted_saveCurrentMessages r l s :
  persisted (saveCurrentMessages r l s) = <[Role.role r := l]> (persisted s).
Proof.
  unfold saveCurrentMessages, persisted.
  destruct (loadChatHistory s) as [h s1]. reflexivity.
Qed.

(** A save touches the store (and possibly the console) only. *)
Lemma saveCurrentMessages_signals r l s :
  let s' := saveCurrentMessages r l s in
  messageList s' = messageList s ∧
  currentAssistantMessage s' = currentAssistantMessage s ∧
  loading s' = loading s ∧
  controller s' = controller s ∧
  currentRole s' = currentRole s ∧
  roles s' = roles s ∧
  setting s' = setting s ∧
  abortControllers s' = abortControllers s ∧
  posted s' = posted s.
Proof.
  unfold saveCurrentMessages.
  destruct (loadChatHistory_state s) as [E|E];
    destruct (loadChatHistory s) as [h s1]; simpl in E; subst s1;
    simpl; repeat split; reflexivity.
Qed.

(** The signals are no part of the store: setting one leaves every
    persisted entry as it is. *)
Lemma persisted_setMessageList l s : persisted (setMessageList l s) = persisted s.
Proof. by apply persisted_ext. Qed.

Lemma persisted_setCurrentAssistantMessage text s :
  persisted (setCurrentAssistantMessage text s) = persisted s.
Proof. by apply persisted_ext. Qed.

Lemma persisted_setLoading b s : persisted (setLoading b s) = persisted s.
Proof. by apply persisted_ext. Qed.

Lemma persisted_setController c s : persisted (setController c s) = persisted s.
Proof. by apply persisted_ext. Qed.

Lemma persisted_setCurrentRole (o : option Role) s : persisted (setCurrentRole o s) = persisted s.
Proof. by apply persisted_ext. Qed.

Lemma persisted_with_abortControllers a s :
  persisted (with_abortControllers a s) = persisted s.
Proof. by apply persisted_ext. Qed.

Lemma persisted_with_posted p s : persisted (with_posted p s) = persisted s.
Proof. by apply persisted_ext. Qed.

Lemma persisted_abort_controller s : persisted (abort_controller s) = persisted s.
Proof.
  unfold abort_controller, abort. destruct (controller s); auto.
  apply persisted_with_abortControllers.
Qed.

End Persistence.

Create Rewrite HintDb persisted.
#[local] Hint Rewrite persisted_console_error persisted_saveChatHistory
  persisted_saveCurrentMessages persisted_setMessageList
  persisted_setCurrentAssistantMessage persisted_setLoading
  persisted_setController persisted_setCurrentRole
  persisted_with_abortControllers persisted_with_posted
  persisted_abort_controller : persisted.

(** ** Archiving *)

(** What an archive does when there is a role and a non-empty buffer. *)
Lemma archiveCurrentMessage_commit (s : State) (r : Role) :
  currentRole s = Some r →
  currentAssistantMessage s ≠ "" →
  let s' := archiveCurrentMessage s in
  let newMessages := messageList s ++ [says assistant (currentAssistantMessage s)] in
  messageList s' = newMessages ∧
  persisted s' = <[Role.role r := newMessages]> (persisted s) ∧
  currentAssistantMessage s' = "" ∧
  loading s' = false ∧
  controller s' = None ∧
  currentRole s' = Some r ∧
  roles s' = roles s ∧
  abortControllers s' = abortControllers s ∧
  posted s' = posted s.
Proof.
  intros Hr Hbuf. unfold archiveCurrentMessage. rewrite Hr.
  apply truthy_true_iff in Hbuf. rewrite Hbuf.
  set (new := messageList s ++ _).
  destruct (saveCurrentMessages_signals r new (setMessageList new s))
    as (H1 & H2 & H3 & H4 & H5 & H6 & H7 & H8 & H9).
  cbn zeta. simpl.
  autorewrite with persisted.
  rewrite H1, H5, H6, H8, H9. simpl. rewrite Hr. repeat split; reflexivity.
Qed.

Lemma archiveCurrentMessage_skip (s : State) :
  currentAssistantMessage s = "" ∨ currentRole s = None →
  archiveCurrentMessage s = s.
Proof.
  intros [H|H]; unfold archiveCurrentMessage.
  - rewrite H. simpl. destruct (currentRole s); reflexivity.
  - rewrite H. reflexivity.
Qed.

(** C10: when the partial buffer is empty or no role is active, archiving
    leaves the whole state as it is: message list, persisted history, loading
    flag and cancellation handle.  In every state an archive either changes
    nothing or appends one assistant message with a non-empty content, so it
    never appends an empty one. *)
Theorem archive_frame (s : State) :
  (currentAssistantMessage s = "" ∨ currentRole s = None →
   archiveCurrentMessage s = s ∧
   messageList (archiveCurrentMessage s) = messageList s ∧
   persisted (archiveCurrentMessage s) = persisted s ∧
   loading (archiveCurrentMessage s) = loading s ∧
   controller (archiveCurrentMessage s) = controller s) ∧
  (archiveCurrentMessage s = s ∨
   ∃ text, text ≠ "" ∧
     messageList (archiveCurrentMessage s) = messageList s ++ [says assistant text]).
Proof.
  split.
  - intros H. rewrite (archiveCurrentMessage_skip s H). repeat split; reflexivity.
  - destruct (currentRole s) as [r|] eqn:Hr.
    + destruct (decide (currentAssistantMessage s = "")) as [E|E].
      * left. apply archiveCurrentMessage_skip. by left.
      * right. exists (currentAssistantMessage s). split; [exact E|].
        by destruct (archiveCurrentMessage_commit s r Hr E) as [-> _].
    + left. apply archiveCurrentMessage_skip. by right.
Qed.

Lemma archive_frame_witness :
  archiveCurrentMessage fresh = fresh ∧
  messageList (archiveCurrentMessage fresh) = messageList fresh ∧
  persisted (archiveCurrentMessage fresh) = persisted fresh ∧
  loading (archiveCurrentMessage fresh) = loading fresh ∧
  controller (archiveCurrentMessage fresh) = controller fresh.
Proof.
  apply (proj1 (archive_frame fresh)). left. reflexivity.
Defined.

(** ** Stop *)

(** C1: stopping mid-stream, with a role active, a request in flight and the
    text [buf] accumulated, appends exactly one assistant message [buf] to the
    message list and persists that list under the role; loading is false
    afterwards.  When the aborted read then rejects with an [AbortError], the
    catch and finally clauses of the request leave the state as the stop left
    it: the buffer is not archived a second time. *)
Theorem stop_archives_once (s : State) (r : Role) (c : nat) (buf : string)
    (e : Js.Error) :
  currentRole s = Some r →
  controller s = Some c →
  currentAssistantMessage s = buf →
  buf ≠ "" →
  Js.name e = "AbortError" →
  let stopped := stopStreamFetch s in
  messageList stopped = messageList s ++ [says assistant buf] ∧
  persisted stopped !! Role.role r = Some (messageList s ++ [says assistant buf]) ∧
  loading stopped = false ∧
  currentAssistantMessage stopped = "" ∧
  readSettled (ReadRejected e) stopped = (Returned, stopped) ∧
  run s [Stop; ReadSettled (ReadRejected e)] = stopped.
Proof.
  intros Hr Hc Hbuf Hne He stopped.
  assert (Hcommit := archiveCurrentMessage_commit (abort c s) r Hr).
  simpl in Hcommit. rewrite Hbuf in Hcommit. specialize (Hcommit Hne).
  assert (Hstop : stopped = archiveCurrentMessage (abort c s)).
  { unfold stopped, stopStreamFetch. by rewrite Hc. }
  rewrite <- Hstop in Hcommit.
  destruct Hcommit as (Hm & Hp & Hb & Hl & Hctl & _).
  assert (Hset : readSettled (ReadRejected e) stopped = (Returned, stopped)).
  { simpl. unfold request_throw, request_catch. rewrite He.
    destruct (decide ("AbortError" ≠ "AbortError")) as [N|_]; [by destruct N|].
    unfold request_finally, controller_aborted. rewrite Hctl. simpl.
    rewrite archiveCurrentMessage_skip; [reflexivity | by left]. }
  repeat split; try assumption.
  - rewrite Hp. apply lookup_insert_eq.
  - change (run s [Stop; ReadSettled (ReadRejected e)])
      with (readSettled (ReadRejected e) stopped).2.
    by rewrite Hset.
Qed.

Lemma stop_archives_once_witness :
  let stopped := stopStreamFetch mid_stream in
  messageList stopped = messageList mid_stream ++ [says assistant "partial answer"] ∧
  persisted stopped !! "buddha"
    = Some (messageList mid_stream ++ [says assistant "partial answer"]) ∧
  loading stopped = false ∧
  currentAssistantMessage stopped = "" ∧
  readSettled (ReadRejected AbortError) stopped = (Returned, stopped) ∧
  run mid_stream [Stop; ReadSettled (ReadRejected AbortError)] = stopped.
Proof.
  apply (stop_archives_once mid_stream buddha 0 "partial answer" AbortError);
    [reflexivity | reflexivity | reflexivity | discriminate | reflexivity].
Defined.

(** ** Substrings and slices *)

Lemma append_cons (a : ascii) (s t : string) :
  String a s +:+ t = String a (s +:+ t).
Proof. reflexivity. Qed.

Lemma prefix_spec (p s : string) :
  String.prefix p s = true ↔ ∃ after, s = p +:+ after.
Proof.
  revert s. induction p as [|a p IH]; intros s.
  - split; [intros _; exists s; reflexivity | intros _; by destruct s].
  - destruct s as [|b s]; cbn [String.prefix].
    + split; [discriminate | intros [after E]; discriminate].
    + destruct (ascii_dec a b) as [->|N].
      * rewrite IH. split; intros [after E]; exists after;
          rewrite append_cons in *; congruence.
      * split; [discriminate | intros [after E]; rewrite append_cons in E; congruence].
Qed.

(** [includes] finds exactly the texts that have [search] between some
    beginning and some end. *)
Lemma includes_spec (s search : string) :
  Js.includes s search = true ↔ ∃ before after, s = before +:+ search +:+ after.
Proof.
  induction s as [|a s IH]; cbn [Js.includes].
  - rewrite orb_false_r, prefix_spec. split.
    + intros [after E]. by exists "", after.
    + intros [[|b before] [after E]]; [by exists after | discriminate].
  - rewrite orb_true_iff, prefix_spec, IH. split.
    + intros [[after E] | (before & after & E)].
      * by exists "", after.
      * exists (String a before), after. by rewrite append_cons, E.
    + intros ([|b before] & after & E).
      * left. by exists after.
      * right. exists before, after. rewrite append_cons in E. congruence.
Qed.

Lemma slice_first {A} (n : nat) (l : list A) :
  Js.slice 0 (Some (Z.of_nat n)) l = take n l.
Proof.
  unfold Js.slice, Js.relative_index. simpl.
  destruct (Z.ltb_spec (Z.of_nat n) 0) as [?|_]; [lia|].
  replace (Z.to_nat (0 `min` Z.of_nat (length l))) with 0 by lia.
  rewrite Nat.sub_0_r, drop_0.
  destruct (decide (n ≤ length l)).
  - f_equal. lia.
  - rewrite !take_ge; [done | lia | lia].
Qed.

Lemma slice_last {A} (n : nat) (l : list A) :
  0 < n → Js.slice (- Z.of_nat n) None l = drop (length l - n) l.
Proof.
  intros Hn. unfold Js.slice, Js.relative_index. simpl.
  destruct (Z.ltb_spec (- Z.of_nat n) 0) as [_|?]; [|lia].
  replace (Z.to_nat ((Z.of_nat (length l) + - Z.of_nat n) `max` 0))
    with (length l - n) by lia.
  apply take_ge. rewrite length_drop. lia.
Qed.

Lemma slice_but_last {A} (l : list A) (x : A) :
  Js.slice 0 (Some (-1)%Z) (l ++ [x]) = l.
Proof.
  unfold Js.slice, Js.relative_index. simpl.
  rewrite length_app. simpl.
  replace (Z.to_nat ((Z.of_nat (length l + 1) + -1) `max` 0)) with (length l) by lia.
  replace (Z.to_nat (0 `min` Z.of_nat (length l + 1))) with 0 by lia.
  rewrite Nat.sub_0_r, drop_0. by rewrite take_app_length.
Qed.

(** ** Request construction *)

Lemma find_head_filter (rs : list Role) (id : string) :
  List.find (λ r, bool_decide (Role.role r = id)) rs
  = head (filter (λ r, Role.role r = id) rs).
Proof.
  induction rs as [|r rs IH]; [done|].
  cbn [List.find]. rewrite filter_cons.
  destruct (decide (Role.role r = id)) as [E|N].
  - by rewrite bool_decide_eq_true_2.
  - by rewrite bool_decide_eq_false_2.
Qed.

Lemma filter_without_failed (l : list ChatMessage) :
  List.filter (λ item, negb (Js.includes (ChatMessage.content item) errorMarker)) l
  = Spec.without_failed l.
Proof.
  unfold Spec.without_failed.
  induction l as [|m l IH]; [done|].
  cbn [List.filter]. rewrite filter_cons, IH.
  case_decide as E.
  - by rewrite E.
  - by destruct (Js.includes _ _).
Qed.

Lemma last_n_drop {A} (n : nat) (l : list A) :
  Spec.last_n n l = drop (length l - n) l.
Proof.
  unfold Spec.last_n. by rewrite take_reverse, reverse_involutive.
Qed.

Lemma requestMessageList_spec (rs : list Role) (cur : Role) (l : list ChatMessage) :
  requestMessageList rs cur l = Spec.request_messages rs cur l.
Proof.
  unfold requestMessageList, Spec.request_messages, structuredClone.
  rewrite filter_without_failed, find_head_filter.
  set (l1 := match l with [] => l | _ => _ end).
  assert (l1 = Spec.drop_leading_welcome (Spec.role_welcome rs cur) l) as ->.
  { unfold l1, Spec.drop_leading_welcome, Spec.role_welcome.
    destruct l as [|[sp text] rest]; [done|].
    destruct (head _) as [r|]; unfold welcome; simpl;
      repeat case_bool_decide; repeat case_decide; simplify_eq/=;
      try done; congruence. }
  set (kept := Spec.without_failed _).
  unfold Spec.cap. destruct (decide (15 < length kept)) as [H|H].
  - replace (15 <? length kept) with true by (symmetry; by apply Nat.ltb_lt).
    rewrite (slice_first 3), (slice_last 12) by lia.
    by rewrite last_n_drop.
  - by replace (15 <? length kept) with false by (symmetry; by apply Nat.ltb_ge; lia).
Qed.

Lemma drop_leading_welcome_sublist w (l : list ChatMessage) :
  Spec.drop_leading_welcome w l `sublist_of` l.
Proof.
  destruct l as [|m rest]; simpl; [done|].
  destruct (decide (Some m = w)); [by apply sublist_cons | done].
Qed.

Lemma cap_sublist (l : list ChatMessage) : Spec.cap l `sublist_of` l.
Proof.
  unfold Spec.cap. destruct (decide (15 < length l)) as [H|H]; [|done].
  rewrite last_n_drop.
  trans (take 3 l ++ drop 3 l); [|by rewrite take_drop].
  apply sublist_app; [done|].
  replace (length l - 12) with (3 + (length l - 15)) by lia.
  rewrite <- drop_drop. apply sublist_drop.
Qed.

Lemma cap_length (l : list ChatMessage) :
  15 < length l → length (Spec.cap l) = 15.
Proof.
  intros H. unfold Spec.cap. rewrite decide_True by done.
  rewrite last_n_drop, length_app, length_take, length_drop. lia.
Qed.

(** The synchronous part of a request, for an active role. *)
Lemma requestWithLatestMessage_active (now : Z) (s : State) (cur : Role) :
  currentRole s = Some cur →
  let s' := requestWithLatestMessage now s in
  messageList s' = messageList s ∧
  currentAssistantMessage s' = "" ∧
  loading s' = true ∧
  controller s' = Some (length (abortControllers s)) ∧
  abortControllers s' = abortControllers s ++ [false] ∧
  currentRole s' = Some cur ∧
  roles s' = roles s ∧
  localStorage s' = localStorage s ∧
  console s' = console s ∧
  posted s' = posted s ++
    [ {| body_setting := Js.spread (setting s) {[ "role" := Js.Str (Role.role cur) ]};
         body_messages := requestMessageList (roles s) cur (messageList s);
         body_time := now |} ].
Proof.
  intros Hr. unfold requestWithLatestMessage. rewrite Hr. simpl.
  repeat split; assumption.
Qed.

(** C2: the messages of a constructed request are the current message list
    after (1) dropping a leading message that is exactly the role's welcome
    message, (2) removing every message whose content contains the error
    marker and (3) capping to the first 3 and the last 12 when more than 15
    remain.  They are a sub-sequence of the message list, so the original
    order is kept, and when more than 15 messages remain after the filter the
    request carries exactly 15. *)
Theorem request_context (s : State) (cur : Role) (now : Z) :
  currentRole s = Some cur →
  let kept :=
    Spec.without_failed
      (Spec.drop_leading_welcome (Spec.role_welcome (roles s) cur) (messageList s)) in
  ∃ body,
    posted (requestWithLatestMessage now s) = posted s ++ [body] ∧
    body_messages body = Spec.request_messages (roles s) cur (messageList s) ∧
    body_messages body `sublist_of` messageList s ∧
    (∀ m, m ∈ body_messages body →
       ¬ Spec.contains (ChatMessage.content m) errorMarker) ∧
    (15 < length kept →
       length (body_messages body) = 15 ∧
       body_messages body = take 3 kept ++ drop (length kept - 12) kept).
Proof.
  intros Hr kept.
  destruct (requestWithLatestMessage_active now s cur Hr)
    as (_ & _ & _ & _ & _ & _ & _ & _ & _ & Hp).
  eexists. split; [exact Hp|]. cbn [body_messages].
  rewrite requestMessageList_spec. unfold Spec.request_messages. fold kept.
  split; [done|]. split; [|split].
  - etrans; [apply cap_sublist|]. etrans; [apply sublist_filter|].
    apply drop_leading_welcome_sublist.
  - intros m Hm.
    assert (Hk : m ∈ kept).
    { eapply elem_of_sublist; [exact Hm | apply cap_sublist]. }
    unfold kept, Spec.without_failed in Hk.
    apply list_elem_of_filter in Hk as [Hk _].
    intros H. apply includes_spec in H. congruence.
  - intros H. split; [by apply cap_length|].
    unfold Spec.cap. rewrite decide_True by done. by rewrite last_n_drop.
Qed.

Lemma request_context_witness :
  ∃ body,
    posted (requestWithLatestMessage noon long_talk)
      = posted long_talk ++ [body] ∧
    body_messages body
      = [says user "q1"; says assistant "a1"; says user "q2";
         says assistant "a4"; says user "q5"; says assistant "a5";
         says user "q6"; says assistant "a6"; says user "q7";
         says assistant "a7"; says user "q8"; says assistant "a8";
         says user "q9"; says assistant "a9"; says user "q10"] ∧
    length (body_messages body) = 15.
Proof.
  destruct (request_context long_talk buddha noon eq_refl)
    as (body & Hp & Hb & _ & _ & H15).
  exists body. split; [exact Hp|]. split.
  - rewrite Hb. vm_compute. reflexivity.
  - apply H15. vm_compute. lia.
Defined.

(** ** Role switch *)

(** Case analysis on what is stored under the history key: a history, a
    non-empty text that does not parse, the empty text, or nothing.  In each
    case [loadChatHistory] computes. *)
Ltac store_cases s :=
  let raw := fresh "raw" in
  let Hraw := fresh "Hraw" in
  destruct s as [? ? ? ? currentRole0 ? ? ? [[[?|raw]|] ?] ? ?];
  [ | destruct (Js.truthy raw) eqn:Hraw | ];
  unfold persisted, saveCurrentMessages, loadChatHistory;
  cbn [localStorage chat_history_item Js.text_truthy Js.JSON_parse fst snd];
  rewrite ?Hraw.

Lemma handleRoleChange_spec (newRole : Role) (seed : option History) (s : State) :
  let s' := handleRoleChange newRole seed s in
  let h1 := after_snapshot newRole s in
  currentRole s' = Some newRole ∧
  currentAssistantMessage s' = "" ∧
  loading s' = false ∧
  controller s' = None ∧
  match default h1 seed !! Role.role newRole with
  | Some (m :: l) => messageList s' = m :: l ∧ persisted s' = h1
  | _ => messageList s' = [welcome newRole] ∧
         persisted s' = <[Role.role newRole := [welcome newRole]]> h1
  end.
Proof.
  unfold handleRoleChange, after_snapshot.
  store_cases s; cbn [currentRole messageList];
    (destruct currentRole0 as [oldRole|];
     [destruct (decide (Role.role oldRole ≠ Role.role newRole))|]);
    destruct seed as [h|];
    unfold persisted, saveCurrentMessages, loadChatHistory, structuredClone,
      abort_controller, abort;
    cbn -[insert lookup]; rewrite ?Hraw; cbn -[insert lookup];
    match goal with
    | |- context [match ?m !! ?k with _ => _ end] =>
        destruct (m !! k) as [[|? ?]|]
    end;
    cbn -[insert lookup]; rewrite ?Hraw;
    match goal with
    | |- context [match ?c with Some _ => _ | None => _ end] => destruct c
    end;
    cbn -[insert lookup]; rewrite ?Hraw; repeat split; reflexivity.
Qed.

(** [onMount] hands the history it has just loaded to the switch. *)
Lemma onMount_seed (R : Role) (rest : list Role) (s : State) :
  ∃ s2, persisted s2 = persisted s ∧
        onMount (R :: rest) s = handleRoleChange R (Some (persisted s)) s2.
Proof.
  unfold onMount.
  set (s1 := setRoles (R :: rest) (loadSetting s)).
  assert (H1 : persisted s1 = persisted s).
  { apply persisted_ext. unfold s1, loadSetting. simpl.
    destruct (setting_item (localStorage s)) as [t|]; [|done].
    destruct (Js.text_truthy t); [|done].
    by destruct (Js.JSON_parse t). }
  assert (Hh : loadChatHistory s1 = (persisted s1, (loadChatHistory s1).2)).
  { unfold persisted. by destruct (loadChatHistory s1). }
  cbv zeta. fold s1. rewrite Hh, H1.
  exists (loadChatHistory s1).2. split; [|reflexivity].
  destruct (loadChatHistory_state s1) as [->| ->];
    [done | by rewrite persisted_console_error].
Qed.

(** What a switch does, in terms of the history it consults. *)
Lemma handleRoleChange_consults (s : State) (R : Role) (seed : option History) :
  let consulted := default (persisted s) seed in
  let s' := handleRoleChange R seed s in
  currentRole s' = Some R ∧
  (consulted !! Role.role R = None ∨ consulted !! Role.role R = Some [] →
     messageList s' = [says assistant (Role.fc R)] ∧
     persisted s' !! Role.role R = Some [says assistant (Role.fc R)]) ∧
  (∀ l, consulted !! Role.role R = Some l → l ≠ [] → messageList s' = l).
Proof.
  intros consulted s'.
  destruct (handleRoleChange_spec R seed s) as (Hr & _ & _ & _ & H).
  fold s' in Hr, H.
  assert (Hc : default (after_snapshot R s) seed !! Role.role R
               = consulted !! Role.role R).
  { unfold consulted, after_snapshot. destruct seed as [h|]; [done|]. simpl.
    destruct (currentRole s) as [old|]; [|done].
    destruct (decide (Role.role old ≠ Role.role R)); [|done].
    by rewrite lookup_insert_ne. }
  rewrite Hc in H. split; [exact Hr|]. split.
  - intros [E|E]; rewrite E in H; destruct H as [-> ->];
      by rewrite lookup_insert_eq.
  - intros l E Hl. rewrite E in H. destruct l as [|m l]; [done|]. by destruct H.
Qed.

(** C3: a switch to role [R] consults a history: the seed when one is handed
    over, as [onMount] does with the history it has just loaded, or else the
    stored history.  When that history has no entry or an empty entry for
    [R], the message list becomes the single assistant message with [R]'s
    welcome text, and this one-message list is persisted under [R]'s
    identifier by the switch itself.  When the entry is not empty, it becomes
    the message list as it is.  The same holds, with respect to the stored
    history, when the component is mounted with [R] first in the registry. *)
Theorem switch_role_seeds_or_adopts (s : State) (R : Role) :
  (∀ seed : option History,
     let consulted := default (persisted s) seed in
     let s' := handleRoleChange R seed s in
     currentRole s' = Some R ∧
     (consulted !! Role.role R = None ∨ consulted !! Role.role R = Some [] →
        messageList s' = [says assistant (Role.fc R)] ∧
        persisted s' !! Role.role R = Some [says assistant (Role.fc R)]) ∧
     (∀ l, consulted !! Role.role R = Some l → l ≠ [] → messageList s' = l)) ∧
  (∀ rest : list Role,
     let s' := onMount (R :: rest) s in
     currentRole s' = Some R ∧
     (persisted s !! Role.role R = None ∨ persisted s !! Role.role R = Some [] →
        messageList s' = [says assistant (Role.fc R)] ∧
        persisted s' !! Role.role R = Some [says assistant (Role.fc R)]) ∧
     (∀ l, persisted s !! Role.role R = Some l → l ≠ [] → messageList s' = l)).
Proof.
  split.
  - intros seed. apply handleRoleChange_consults.
  - intros rest s'.
    destruct (onMount_seed R rest s) as (s2 & Hp & E).
    unfold s'. rewrite E. rewrite <- Hp.
    apply (handleRoleChange_consults s2 R (Some (persisted s2))).
Qed.

Lemma switch_role_seeds_or_adopts_witness :
  messageList (handleRoleChange manjushri None mid_stream)
    = [says assistant "Ask, and look inside."] ∧
  persisted (handleRoleChange manjushri None mid_stream) !! "manjushri"
    = Some [says assistant "Ask, and look inside."] ∧
  messageList (handleRoleChange buddha None (handleRoleChange manjushri None mid_stream))
    = [says assistant "Welcome"; says user "hi"].
Proof.
  destruct (switch_role_seeds_or_adopts mid_stream manjushri) as [H0 _].
  destruct (H0 None) as (_ & H & _).
  destruct (switch_role_seeds_or_adopts
              (handleRoleChange manjushri None mid_stream) buddha) as [H0' _].
  destruct (H0' None) as (_ & _ & H').
  destruct H as [H1 H2]; [left; reflexivity|].
  split; [exact H1|]. split; [exact H2|].
  apply H'; [reflexivity | discriminate].
Defined.

(** ** Isolation of the roles' histories *)

Section Confined.

Implicit Types (s : State) (r : Role).

Lemma confined_refl s : confined s s.
Proof. by split. Qed.

Lemma confined_trans s s' s'' : confined s s' → confined s' s'' → confined s s''.
Proof.
  intros [Hr H] [Hr' H']. split; [congruence|].
  intros id Hid. rewrite H', H; [done | done |].
  unfold active_id in *. by rewrite Hr.
Qed.

Lemma confined_same_store s s' :
  currentRole s' = currentRole s → localStorage s' = localStorage s → confined s s'.
Proof. intros Hr Hs. split; [done|]. intros id _. by rewrite (persisted_ext s' s). Qed.

Lemma confined_saveCurrentMessages s r l :
  currentRole s = Some r → confined s (saveCurrentMessages r l s).
Proof.
  intros Hr. destruct (saveCurrentMessages_signals r l s) as (_ & _ & _ & _ & H & _).
  split; [done|]. intros id Hid.
  rewrite persisted_saveCurrentMessages, lookup_insert_ne; [done|].
  unfold active_id in Hid. rewrite Hr in Hid. simpl in Hid. congruence.
Qed.

Lemma confined_archiveCurrentMessage s : confined s (archiveCurrentMessage s).
Proof.
  destruct (currentRole s) as [r|] eqn:Hr.
  - destruct (decide (currentAssistantMessage s = "")) as [E|E].
    + rewrite archiveCurrentMessage_skip by by left. apply confined_refl.
    + destruct (archiveCurrentMessage_commit s r Hr E)
        as (_ & Hp & _ & _ & _ & Hr' & _).
      split; [congruence|]. intros id Hid.
      rewrite Hp, lookup_insert_ne; [done|].
      unfold active_id in Hid. rewrite Hr in Hid. simpl in Hid. congruence.
  - rewrite archiveCurrentMessage_skip by by right. apply confined_refl.
Qed.

Lemma confined_requestWithLatestMessage now s :
  confined s (requestWithLatestMessage now s).
Proof.
  destruct (currentRole s) as [r|] eqn:Hr.
  - destruct (requestWithLatestMessage_active now s r Hr)
      as (_ & _ & _ & _ & _ & Hr' & _ & Hs & _).
    apply confined_same_store; congruence.
  - unfold requestWithLatestMessage. rewrite Hr. apply confined_refl.
Qed.

Lemma confined_request_catch e s : confined s (request_catch e s).
Proof.
  unfold request_catch.
  destruct (decide (Js.name e ≠ "AbortError"));
    [by apply confined_same_store | apply confined_refl].
Qed.

Lemma confined_request_finally s : confined s (request_finally s).
Proof.
  unfold request_finally.
  destruct (negb _); [apply confined_archiveCurrentMessage | apply confined_refl].
Qed.

Lemma confined_request_throw e s : confined s (request_throw e s).2.
Proof.
  eapply confined_trans;
    [apply confined_request_catch | apply confined_request_finally].
Qed.

Lemma confined_fetchSettled res s : confined s (fetchSettled res s).2.
Proof.
  destruct res as [e|status statusText body]; simpl.
  - apply confined_request_throw.
  - destruct (negb (response_ok status)); [apply confined_request_throw|].
    destruct (negb body); [apply confined_request_throw | apply confined_refl].
Qed.

Lemma confined_readSettled res s : confined s (readSettled res s).2.
Proof.
  assert (Hnext : ∀ (done : bool) s', confined s s' →
            confined s (if done then (Returned, request_finally s') else (Reading, s')).2).
  { intros [] s' H; simpl; [|done].
    eapply confined_trans; [exact H | apply confined_request_finally]. }
  destruct res as [e|[char|] done]; cbn [readSettled].
  - apply confined_request_throw.
  - destruct (_ && _); [apply confined_refl|].
    destruct (Js.truthy char); apply Hnext;
      [by apply confined_same_store | apply confined_refl].
  - apply Hnext, confined_refl.
Qed.

Lemma confined_save_then_request s r l now :
  currentRole s = Some r →
  confined s (requestWithLatestMessage now (saveCurrentMessages r l (setMessageList l s))).
Proof.
  intros Hr.
  eapply confined_trans; [|apply confined_requestWithLatestMessage].
  eapply confined_trans with (s' := setMessageList l s);
    [by apply confined_same_store | by apply confined_saveCurrentMessages].
Qed.

Lemma confined_handleButtonClick inputValue now s :
  confined s (handleButtonClick inputValue now s).
Proof.
  unfold handleButtonClick. destruct (currentRole s) as [r|] eqn:Hr;
    [|apply confined_refl].
  destruct (Js.truthy inputValue); [|apply confined_refl].
  by apply confined_save_then_request.
Qed.

Lemma confined_clear s : confined s (clear s).
Proof.
  unfold clear. destruct (currentRole s) as [r|] eqn:Hr; [|apply confined_refl].
  eapply confined_trans; [|by apply confined_saveCurrentMessages].
  by apply confined_same_store.
Qed.

Lemma confined_stopStreamFetch s : confined s (stopStreamFetch s).
Proof.
  unfold stopStreamFetch. destruct (controller s) as [c|]; [|apply confined_refl].
  eapply confined_trans; [|apply confined_archiveCurrentMessage].
  by apply confined_same_store.
Qed.

Lemma confined_retryLastFetch now s : confined s (retryLastFetch now s).
Proof.
  unfold retryLastFetch. destruct (currentRole s) as [r|] eqn:Hr;
    [|apply confined_refl].
  destruct (0 <? _); [|apply confined_refl].
  destruct (_ !! _) as [lastMessage|]; [|apply confined_refl].
  destruct (decide _); [|apply confined_refl].
  by apply confined_save_then_request.
Qed.

End Confined.

(** A switch writes under the identifier of the role it leaves and of the
    role it enters, and nowhere else. *)
Lemma handleRoleChange_frame (newRole : Role) (seed : option History)
    (s : State) (id : string) :
  active_id s ≠ Some id →
  Role.role newRole ≠ id →
  persisted (handleRoleChange newRole seed s) !! id = persisted s !! id.
Proof.
  intros Hold Hnew.
  destruct (handleRoleChange_spec newRole seed s) as (_ & _ & _ & _ & H).
  assert (H1 : after_snapshot newRole s !! id = persisted s !! id).
  { unfold after_snapshot, active_id in *.
    destruct (currentRole s) as [old|]; [|done].
    destruct (decide _); [|done].
    rewrite lookup_insert_ne; [done|]. simpl in Hold. congruence. }
  destruct (default _ seed !! Role.role newRole) as [[|m l]|];
    destruct H as [_ ->]; by rewrite ?lookup_insert_ne.
Qed.

(** On switching away from a role its message list is what is persisted
    under its identifier. *)
Lemma handleRoleChange_snapshot (newRole oldRole : Role) (seed : option History)
    (s : State) :
  currentRole s = Some oldRole →
  Role.role oldRole ≠ Role.role newRole →
  persisted (handleRoleChange newRole seed s) !! Role.role oldRole
  = Some (messageList s).
Proof.
  intros Hr Hne.
  destruct (handleRoleChange_spec newRole seed s) as (_ & _ & _ & _ & H).
  assert (H1 : after_snapshot newRole s !! Role.role oldRole = Some (messageList s)).
  { unfold after_snapshot. rewrite Hr, decide_True by done.
    apply lookup_insert_eq. }
  destruct (default _ seed !! Role.role newRole) as [[|m l]|];
    destruct H as [_ ->]; by rewrite ?lookup_insert_ne.
Qed.

Lemma handleRoleChange_active (newRole : Role) (seed : option History) (s : State) :
  active_id (handleRoleChange newRole seed s) = Some (Role.role newRole).
Proof.
  destruct (handleRoleChange_spec newRole seed s) as (Hr & _).
  unfold active_id. by rewrite Hr.
Qed.

(** One event, seen from a role that is active neither before nor after it. *)
Lemma step_frame (s : State) (e : Event) (id : string) :
  active_id s ≠ Some id →
  active_id (step s e) ≠ Some id →
  persisted (step s e) !! id = persisted s !! id.
Proof.
  intros Hbefore Hafter.
  assert (Hconfined : ∀ s', confined s s' → persisted s' !! id = persisted s !! id).
  { intros s' [_ H]. by apply H. }
  destruct e as [newRole seed|activeIndex|inputValue now| | | |now|res|res];
    cbn [step] in *.
  - apply handleRoleChange_frame; [done|].
    rewrite handleRoleChange_active in Hafter. congruence.
  - unfold slideChange in *.
    destruct (roles s !! activeIndex) as [newRole|]; [|done].
    destruct (decide _); [|done].
    apply handleRoleChange_frame; [done|].
    rewrite handleRoleChange_active in Hafter. congruence.
  - apply Hconfined, confined_handleButtonClick.
  - apply Hconfined, confined_archiveCurrentMessage.
  - apply Hconfined, confined_clear.
  - apply Hconfined, confined_stopStreamFetch.
  - apply Hconfined, confined_retryLastFetch.
  - apply Hconfined, confined_fetchSettled.
  - apply Hconfined, confined_readSettled.
Qed.

Lemma run_frame (events : list Event) (s : State) (id : string) :
  Forall (λ s', active_id s' ≠ Some id) (visited s events) →
  persisted (run s events) !! id = persisted s !! id.
Proof.
  revert s. induction events as [|e events IH]; intros s H; [done|].
  cbn [visited] in H. apply Forall_cons in H as [Hs H].
  change (run s (e :: events)) with (run (step s e) events).
  rewrite IH by done. apply step_frame; [done|].
  destruct events; cbn [visited] in H; by apply Forall_cons in H as [? _].
Qed.

(** C4: isolation across roles.  Through any sequence of events (switches,
    sends, archives, clears, stops, retries, settled fetches and reads) the
    persisted entry of a role stays what it was as long as that role is not
    the active one in any state the sequence passes through.  The store holds
    values of its own: setting a signal (message list, partial buffer, loading
    flag, cancellation handle) changes no persisted entry.  On switching away
    from a role, its message list is persisted under its own identifier;
    whatever happens afterwards while other roles are active, the entry
    remains that list. *)
Theorem role_isolation :
  (∀ (s : State) (events : list Event) (id : string),
     Forall (λ s', active_id s' ≠ Some id) (visited s events) →
     persisted (run s events) !! id = persisted s !! id) ∧
  (∀ (s : State) (l : list ChatMessage) (text : string) (b : bool) (c : option nat),
     persisted (setMessageList l s) = persisted s ∧
     persisted (setCurrentAssistantMessage text s) = persisted s ∧
     persisted (setLoading b s) = persisted s ∧
     persisted (setController c s) = persisted s) ∧
  (∀ (s : State) (oldRole newRole : Role) (seed : option History)
     (events : list Event),
     currentRole s = Some oldRole →
     Role.role oldRole ≠ Role.role newRole →
     let switched := handleRoleChange newRole seed s in
     persisted switched !! Role.role oldRole = Some (messageList s) ∧
     (Forall (λ s', active_id s' ≠ Some (Role.role oldRole)) (visited switched events) →
      persisted (run switched events) !! Role.role oldRole = Some (messageList s))).
Proof.
  split; [|split].
  - intros s events id. apply run_frame.
  - intros s l text b c. by autorewrite with persisted.
  - intros s oldRole newRole seed events Hr Hne switched.
    assert (Hsnap := handleRoleChange_snapshot newRole oldRole seed s Hr Hne).
    fold switched in Hsnap. split; [exact Hsnap|].
    intros H. by rewrite run_frame.
Qed.

Lemma role_isolation_witness :
  let switched := handleRoleChange manjushri None mid_stream in
  persisted switched !! "buddha" = Some [says assistant "Welcome"; says user "hi"] ∧
  persisted (run switched with_manjushri) !! "buddha"
    = Some [says assistant "Welcome"; says user "hi"].
Proof.
  destruct role_isolation as (_ & _ & H).
  destruct (H mid_stream buddha manjushri None with_manjushri eq_refl) as [H1 H2];
    [discriminate|].
  split; [exact H1|]. apply H2.
  repeat (apply Forall_cons; split; [discriminate|]). apply Forall_nil_2.
Defined.

(** ** Streaming *)

Lemma append_empty_r (s : string) : s +:+ "" = s.
Proof. induction s as [|a s IH]; [done|]. by rewrite append_cons, IH. Qed.

Lemma append_assoc (s t u : string) : (s +:+ t) +:+ u = s +:+ (t +:+ u).
Proof. induction s as [|a s IH]; [done|]. by rewrite !append_cons, IH. Qed.

Lemma length_append (s t : string) :
  String.length (s +:+ t) = String.length s + String.length t.
Proof. induction s as [|a s IH]; [done|]. rewrite append_cons. simpl. by rewrite IH. Qed.

Lemma substring_whole (s : string) : substring 0 (String.length s) s = s.
Proof. induction s as [|a s IH]; [done|]. simpl. by rewrite IH. Qed.

Lemma substring_after (before s : string) :
  substring (String.length before) (String.length s) (before +:+ s) = s.
Proof.
  induction before as [|a before IH]; [apply substring_whole|].
  rewrite append_cons. exact IH.
Qed.

Lemma substring_split (n : nat) (s : string) :
  n ≤ String.length s →
  s = substring 0 n s +:+ substring n (String.length s - n) s.
Proof.
  revert s. induction n as [|n IH]; intros s Hn.
  - rewrite Nat.sub_0_r, substring_whole. by destruct s.
  - destruct s as [|a s]; simpl in *; [lia|].
    rewrite append_cons. f_equal. apply IH. lia.
Qed.

(** [endsWith] finds exactly the texts that are some beginning followed by
    [search]. *)
Lemma endsWith_spec (s search : string) :
  Js.endsWith s search = true ↔ ∃ before, s = before +:+ search.
Proof.
  unfold Js.endsWith. split.
  - destruct (Nat.ltb_spec (String.length s) (String.length search)) as [?|Hle];
      [done|].
    intros E. apply String.eqb_eq in E.
    exists (substring 0 (String.length s - String.length search) s).
    pose proof (substring_split (String.length s - String.length search) s) as Hs.
    replace (String.length s - (String.length s - String.length search))
      with (String.length search) in Hs by lia.
    rewrite E in Hs. apply Hs. lia.
  - intros [before ->]. rewrite length_append.
    destruct (Nat.ltb_spec (String.length before + String.length search)
                (String.length search)) as [?|_]; [lia|].
    replace (String.length before + String.length search - String.length search)
      with (String.length before) by lia.
    rewrite substring_after. apply String.eqb_refl.
Qed.

Lemma setCurrentAssistantMessage_same (s : State) :
  setCurrentAssistantMessage (currentAssistantMessage s) s = s.
Proof. by destruct s. Qed.

Lemma chunk_step (s : State) (text : string) :
  readSettled (ReadResolved (Some text) false) s
  = (Reading,
     setCurrentAssistantMessage
       (Stream.append_chunk (currentAssistantMessage s) text) s).
Proof.
  unfold Stream.append_chunk. cbn [readSettled].
  destruct (String.eqb_spec text Js.newline) as [->|Hn]; cbn [andb].
  - destruct (Js.endsWith (currentAssistantMessage s) Js.newline) eqn:E.
    + rewrite decide_True by done.
      by rewrite setCurrentAssistantMessage_same.
    + by rewrite decide_False by (by intros [_ ?]).
  - rewrite decide_False by (by intros [? _]).
    destruct (Js.truthy text) eqn:Ht; [done|].
    apply truthy_false_iff in Ht as ->.
    by rewrite append_empty_r, setCurrentAssistantMessage_same.
Qed.

Lemma run_chunks (texts : list string) (s : State) :
  run s (chunk <$> texts)
  = setCurrentAssistantMessage
      (Stream.accumulate (currentAssistantMessage s) texts) s.
Proof.
  revert s. induction texts as [|text texts IH]; intros s.
  - simpl. by rewrite setCurrentAssistantMessage_same.
  - change (run s (chunk <$> text :: texts))
      with (run (readSettled (ReadResolved (Some text) false) s).2 (chunk <$> texts)).
    rewrite chunk_step. cbn [snd]. by rewrite IH.
Qed.

Lemma accumulate_in_order (texts : list string) (buffer : string) :
  Forall (λ text, text ≠ Js.newline) texts →
  Stream.accumulate buffer texts = buffer +:+ String.concat "" texts.
Proof.
  revert buffer. induction texts as [|text texts IH]; intros buffer H.
  - simpl. by rewrite append_empty_r.
  - apply Forall_cons in H as [Hn H].
    unfold Stream.accumulate in *. cbn [fold_left].
    rewrite IH by done. unfold Stream.append_chunk.
    rewrite decide_False by (by intros [? _]).
    rewrite append_assoc. f_equal.
    destruct texts as [|t texts]; [by rewrite append_empty_r|done].
Qed.

(** A stream that ends with text in the buffer, for a request that is still
    the current one and was not aborted: the text is archived. *)
Lemma end_of_stream_archives (s : State) (r : Role) :
  currentRole s = Some r →
  controller_aborted s = false →
  currentAssistantMessage s ≠ "" →
  let s' := step s end_of_stream in
  let newMessages := messageList s ++ [says assistant (currentAssistantMessage s)] in
  messageList s' = newMessages ∧
  persisted s' = <[Role.role r := newMessages]> (persisted s) ∧
  currentAssistantMessage s' = "" ∧
  loading s' = false ∧
  controller s' = None.
Proof.
  intros Hr Hc Hb. cbn. unfold request_finally. rewrite Hc. cbn.
  destruct (archiveCurrentMessage_commit s r Hr Hb) as (H1 & H2 & H3 & H4 & H5 & _).
  by repeat split.
Qed.

(** A request that has just been issued is not aborted. *)
Lemma requestWithLatestMessage_live (now : Z) (s : State) (r : Role) :
  currentRole s = Some r →
  controller_aborted (requestWithLatestMessage now s) = false.
Proof.
  intros Hr.
  destruct (requestWithLatestMessage_active now s r Hr)
    as (_ & _ & _ & Hc & Ha & _).
  unfold controller_aborted. rewrite Hc, Ha.
  by rewrite lookup_app_r, Nat.sub_diag.
Qed.

(** C5: chunks are appended to the partial buffer in the order of their
    arrival, except that a chunk that is exactly a newline is dropped when the
    buffer already ends in a newline; when no chunk is a lone newline the
    buffer grows by the concatenation of the chunks.  A request for which the
    chunks "Hello " and "world" arrive before the stream ends archives the
    assistant message "Hello world". *)
Theorem stream_accumulates :
  (∀ (s : State) (text : string),
     (text = Js.newline ∧ Stream.ends_in_newline (currentAssistantMessage s) →
      step s (chunk text) = s) ∧
     (¬ (text = Js.newline ∧ Stream.ends_in_newline (currentAssistantMessage s)) →
      step s (chunk text)
      = setCurrentAssistantMessage (currentAssistantMessage s +:+ text) s)) ∧
  (∀ (s : State) (texts : list string),
     currentAssistantMessage (run s (chunk <$> texts))
     = Stream.accumulate (currentAssistantMessage s) texts) ∧
  (∀ (buffer : string) (texts : list string),
     Forall (λ text, text ≠ Js.newline) texts →
     Stream.accumulate buffer texts = buffer +:+ String.concat "" texts) ∧
  (∀ (s : State) (r : Role) (now : Z),
     currentRole s = Some r →
     let final :=
       run (requestWithLatestMessage now s)
         [ok_response; chunk "Hello "; chunk "world"; end_of_stream] in
     messageList final = messageList s ++ [says assistant "Hello world"] ∧
     persisted final !! Role.role r
       = Some (messageList s ++ [says assistant "Hello world"]) ∧
     currentAssistantMessage final = "" ∧
     loading final = false).
Proof.
  split; [|split; [|split]].
  - intros s text. cbn [step chunk]. rewrite chunk_step. cbn [snd].
    unfold Stream.append_chunk, Stream.ends_in_newline.
    setoid_rewrite <- endsWith_spec.
    split; intros H; [rewrite decide_True by done | by rewrite decide_False].
    apply setCurrentAssistantMessage_same.
  - intros s texts. by rewrite run_chunks.
  - intros buffer texts. apply accumulate_in_order.
  - intros s r now Hr final.
    set (s0 := requestWithLatestMessage now s) in *.
    destruct (requestWithLatestMessage_active now s r Hr)
      as (Hm & Hb & _ & _ & _ & Hr0 & _ & Hs & _).
    fold s0 in Hm, Hb, Hr0, Hs.
    assert (Hlive := requestWithLatestMessage_live now s r Hr). fold s0 in Hlive.
    set (s2 := setCurrentAssistantMessage "Hello world" s0).
    assert (E : final = step s2 end_of_stream).
    { unfold final. change (run s0 _)
        with (step (run s0 (chunk <$> ["Hello "; "world"])) end_of_stream).
      rewrite run_chunks, Hb. reflexivity. }
    destruct (end_of_stream_archives s2 r) as (H1 & H2 & H3 & H4 & _);
      [done | done | done |].
    rewrite E. cbn [s2 messageList currentAssistantMessage setCurrentAssistantMessage] in H1, H2.
    rewrite Hm in H1, H2.
    repeat split; try done.
    rewrite H2. apply lookup_insert_eq.
Qed.

Lemma stream_accumulates_witness :
  let final :=
    run (requestWithLatestMessage noon fresh)
      [ok_response; chunk "Hello "; chunk "world"; end_of_stream] in
  messageList final = [says assistant "Welcome"; says assistant "Hello world"] ∧
  persisted final !! "buddha"
    = Some [says assistant "Welcome"; says assistant "Hello world"] ∧
  currentAssistantMessage final = "" ∧
  loading final = false.
Proof.
  destruct stream_accumulates as (_ & _ & _ & H).
  exact (H fresh buddha noon eq_refl).
Defined.

(** ** Failures of a request *)

Lemma response_ok_iff (status : Z) :
  response_ok status = true ↔ (200 ≤ status ≤ 299)%Z.
Proof. unfold response_ok. rewrite andb_true_iff, !Z.leb_le. tauto. Qed.

(** An exception that is not an abort, in a request that was not aborted,
    with a role active: the error text is archived. *)
Lemma request_throw_error (e : Js.Error) (s : State) (r : Role) :
  currentRole s = Some r →
  controller_aborted s = false →
  Js.name e ≠ "AbortError" →
  let s' := (request_throw e s).2 in
  let newMessages := messageList s ++ [says assistant ("出现错误：" +:+ Js.message e)] in
  currentAssistantMessage (request_catch e s) = "出现错误：" +:+ Js.message e ∧
  messageList s' = newMessages ∧
  persisted s' !! Role.role r = Some newMessages ∧
  currentAssistantMessage s' = "" ∧
  loading s' = false.
Proof.
  intros Hr Hc He. unfold request_throw, request_catch, request_finally.
  rewrite decide_True by done. cbn [snd].
  set (s1 := setCurrentAssistantMessage _ _).
  assert (controller_aborted s1 = false) as -> by exact Hc.
  cbn [negb].
  destruct (archiveCurrentMessage_commit s1 r Hr) as (H1 & H2 & H3 & H4 & _);
    [done|].
  split; [done|]. split; [exact H1|].
  split; [rewrite H2; apply lookup_insert_eq|]. by split.
Qed.

(** An abort: nothing is reported, and what is archived, if anything, is the
    partial text. *)
Lemma request_throw_abort (e : Js.Error) (s : State) :
  Js.name e = "AbortError" →
  let s' := (request_throw e s).2 in
  request_catch e s = s ∧
  (s' = s ∨
   currentAssistantMessage s ≠ "" ∧
   messageList s' = messageList s ++ [says assistant (currentAssistantMessage s)]).
Proof.
  intros He. unfold request_throw, request_catch, request_finally.
  rewrite decide_False by (intros N; by apply N). cbn [snd].
  split; [done|].
  destruct (negb _); [|by left].
  destruct (currentRole s) as [r|] eqn:Hr.
  - destruct (decide (currentAssistantMessage s = "")) as [Hb|Hb].
    + left. apply archiveCurrentMessage_skip. by left.
    + right. split; [done|].
      by destruct (archiveCurrentMessage_commit s r Hr Hb) as [-> _].
  - left. apply archiveCurrentMessage_skip. by right.
Qed.

(** A stop, and then the rejection of the read it has aborted: what is
    archived, if anything, is the partial text, once. *)
Lemma stop_then_abort (e : Js.Error) (s : State) :
  Js.name e = "AbortError" →
  let final := run s [Stop; ReadSettled (ReadRejected e)] in
  messageList final = messageList s ∨
  currentAssistantMessage s ≠ "" ∧
  messageList final = messageList s ++ [says assistant (currentAssistantMessage s)].
Proof.
  intros He final.
  assert (E : final = (request_throw e (stopStreamFetch s)).2) by reflexivity.
  destruct (request_throw_abort e (stopStreamFetch s) He) as [_ H].
  rewrite <- E in H. clear E.
  unfold stopStreamFetch in H.
  destruct (controller s) as [c|].
  - set (s1 := abort c s) in H.
    destruct (currentRole s) as [r|] eqn:Hr.
    + destruct (decide (currentAssistantMessage s = "")) as [Hb|Hb].
      * rewrite (archiveCurrentMessage_skip s1) in H by by left.
        destruct H as [-> | [? ->]]; [by left | by right].
      * destruct (archiveCurrentMessage_commit s1 r Hr Hb) as (Hm & _ & Hb' & _).
        right. split; [done|].
        destruct H as [-> | [N _]]; [exact Hm | by rewrite Hb' in N].
    + rewrite (archiveCurrentMessage_skip s1) in H by by right.
      destruct H as [-> | [? ->]]; [by left | by right].
  - destruct H as [-> | [? ->]]; [by left | by right].
Qed.

(** C6: a request that fails otherwise than by an abort (a status outside
    200..299, a network error, a response without body) has the text
    出现错误：<message> put in the partial buffer, with the failure text as
    message, and archived as an assistant message of the conversation; the
    same holds for a read that fails mid-stream.  An abort is told apart by
    the name of the error: the catch clause leaves the state as it is, so no
    error text is produced, and what the finally clause archives, if anything,
    is the partial text that was there; so it is when the user stops the
    request and the aborted read is rejected. *)
Theorem failures_are_archived :
  (∀ (s : State) (r : Role) (now : Z) (f : TransportFailure),
     currentRole s = Some r →
     is_failure f →
     let final := step (requestWithLatestMessage now s) (FetchSettled (settles f)) in
     let text := "出现错误：" +:+ failure_text f in
     messageList final = messageList s ++ [says assistant text] ∧
     persisted final !! Role.role r = Some (messageList s ++ [says assistant text]) ∧
     currentAssistantMessage final = "" ∧
     loading final = false) ∧
  (∀ (s : State) (r : Role) (e : Js.Error),
     currentRole s = Some r →
     controller_aborted s = false →
     Js.name e ≠ "AbortError" →
     let final := step s (ReadSettled (ReadRejected e)) in
     let text := "出现错误：" +:+ Js.message e in
     currentAssistantMessage (request_catch e s) = text ∧
     messageList final = messageList s ++ [says assistant text] ∧
     persisted final !! Role.role r = Some (messageList s ++ [says assistant text])) ∧
  (∀ (s : State) (e : Js.Error),
     Js.name e = "AbortError" →
     let final := step s (ReadSettled (ReadRejected e)) in
     request_catch e s = s ∧
     (final = s ∨
      currentAssistantMessage s ≠ "" ∧
      messageList final = messageList s ++ [says assistant (currentAssistantMessage s)])) ∧
  (∀ (s : State) (e : Js.Error),
     Js.name e = "AbortError" →
     let final := run s [Stop; ReadSettled (ReadRejected e)] in
     messageList final = messageList s ∨
     currentAssistantMessage s ≠ "" ∧
     messageList final = messageList s ++ [says assistant (currentAssistantMessage s)]).
Proof.
  split; [|split; [|split]].
  - intros s r now f Hr Hf final text.
    set (s0 := requestWithLatestMessage now s) in *.
    destruct (requestWithLatestMessage_active now s r Hr)
      as (Hm & _ & _ & _ & _ & Hr0 & _).
    fold s0 in Hm, Hr0.
    assert (Hlive := requestWithLatestMessage_live now s r Hr). fold s0 in Hlive.
    assert (E : ∃ e, Js.name e ≠ "AbortError" ∧ Js.message e = failure_text f ∧
                     final = (request_throw e s0).2).
    { unfold final. destruct f as [status statusText|e|status statusText];
        cbn [step settles fetchSettled failure_text is_failure] in *.
      - exists (Js.new_Error statusText). split; [done|]. split; [done|].
        destruct (response_ok status) eqn:Hok; [|done].
        by apply response_ok_iff in Hok.
      - exists e. done.
      - exists (Js.new_Error "No data"). split; [done|]. split; [done|].
        apply response_ok_iff in Hf. by rewrite Hf. }
    destruct E as (e & He & Hmsg & ->).
    destruct (request_throw_error e s0 r Hr0 Hlive He) as (_ & H1 & H2 & H3 & H4).
    unfold text. rewrite <- Hmsg, <- Hm. by repeat split.
  - intros s r e Hr Hc He final text.
    destruct (request_throw_error e s r Hr Hc He) as (H0 & H1 & H2 & _).
    by repeat split.
  - intros s e He. apply request_throw_abort, He.
  - intros s e He. apply stop_then_abort, He.
Qed.

Lemma failures_are_archived_witness :
  let final :=
    step (requestWithLatestMessage noon fresh)
      (FetchSettled (settles (NonSuccessStatus 502 "Bad Gateway"))) in
  messageList final
    = messageList fresh ++ [says assistant ("出现错误：" +:+ "Bad Gateway")] ∧
  persisted final !! "buddha"
    = Some (messageList fresh ++ [says assistant ("出现错误：" +:+ "Bad Gateway")]) ∧
  currentAssistantMessage final = "" ∧
  loading final = false.
Proof.
  destruct failures_are_archived as (H & _).
  apply (H fresh buddha noon (NonSuccessStatus 502 "Bad Gateway") eq_refl).
  simpl. lia.
Defined.

(** ** Retry *)

Lemma lookup_last_snoc {A} (l : list A) (m : A) :
  (l ++ [m]) !! (length (l ++ [m]) - 1) = Some m.
Proof.
  rewrite length_app. simpl.
  replace (length l + 1 - 1) with (length l) by lia.
  by rewrite lookup_app_r, Nat.sub_diag.
Qed.

(** C7: with a role active and an assistant message [m] last in the message
    list [l ++ [m]], a retry makes [l] the message list (what precedes [m] is
    kept as it is), persists [l] under the role and issues one request, built
    from [l].  When the list is empty or its last message is not an
    assistant message, a retry changes nothing and issues no request. *)
Theorem retry_regenerates :
  (∀ (s : State) (r : Role) (now : Z) (l : list ChatMessage) (m : ChatMessage),
     currentRole s = Some r →
     messageList s = l ++ [m] →
     ChatMessage.role m = assistant →
     let s' := retryLastFetch now s in
     messageList s' = l ∧
     persisted s' !! Role.role r = Some l ∧
     posted s' = posted s ++
       [ {| body_setting := Js.spread (setting s) {[ "role" := Js.Str (Role.role r) ]};
            body_messages := requestMessageList (roles s) r l;
            body_time := now |} ]) ∧
  (∀ (s : State) (now : Z),
     (∀ m, last (messageList s) = Some m → ChatMessage.role m ≠ assistant) →
     retryLastFetch now s = s).
Proof.
  split.
  - intros s r now l m Hr Hl Hm s'.
    assert (E : s' = requestWithLatestMessage now
                       (saveCurrentMessages r l (setMessageList l s))).
    { unfold s', retryLastFetch. rewrite Hr, Hl, lookup_last_snoc.
      rewrite decide_True by done. rewrite slice_but_last.
      rewrite length_app. simpl.
      by replace (0 <? length l + 1) with true by (symmetry; apply Nat.ltb_lt; lia). }
    set (s1 := saveCurrentMessages r l (setMessageList l s)) in E.
    destruct (saveCurrentMessages_signals r l (setMessageList l s))
      as (H1 & _ & _ & _ & H5 & H6 & H7 & _ & H9).
    fold s1 in H1, H5, H6, H7, H9. simpl in H1, H5, H6, H7, H9.
    rewrite Hr in H5.
    destruct (requestWithLatestMessage_active now s1 r H5)
      as (Hm' & _ & _ & _ & _ & _ & _ & Hs & _ & Hp).
    rewrite <- E in Hm', Hs, Hp.
    rewrite H1 in Hm'. rewrite H1, H6, H7, H9 in Hp.
    split; [exact Hm'|]. split; [|exact Hp].
    rewrite (persisted_ext s' s1 Hs). unfold s1.
    rewrite persisted_saveCurrentMessages. apply lookup_insert_eq.
  - intros s now H. unfold retryLastFetch.
    destruct (currentRole s) as [r|]; [|done].
    destruct (0 <? _); [|done].
    rewrite last_lookup, <- Nat.sub_1_r in H.
    destruct (messageList s !! _) as [lastMessage|]; [|done].
    rewrite decide_False; [done|]. by apply H.
Qed.

Lemma retry_regenerates_witness :
  let s' := retryLastFetch (noon + 5000) answered in
  messageList s' = [says assistant "Welcome"; says user "hi"] ∧
  persisted s' !! "buddha" = Some [says assistant "Welcome"; says user "hi"] ∧
  posted s' = posted answered ++
    [ {| body_setting := Js.spread (setting answered) {[ "role" := Js.Str "buddha" ]};
         body_messages :=
           requestMessageList (roles answered) buddha
             [says assistant "Welcome"; says user "hi"];
         body_time := noon + 5000 |} ].
Proof.
  destruct retry_regenerates as [H _].
  apply (H answered buddha (noon + 5000)%Z
           [says assistant "Welcome"; says user "hi"]
           (says assistant "partial answer")); reflexivity.
Defined.

(** ** Loading the stored history *)

(** C8, as stated, fails on the empty string: it is stored data that
    [JSON.parse] rejects, and the load gives the empty mapping for it without
    reporting anything. *)
Lemma empty_text_is_not_reported :
  chat_history_item (localStorage empty_item) = Some (Js.NotJson "") ∧
  Js.JSON_parse (Js.NotJson "" : Js.Text History) = None ∧
  (loadChatHistory empty_item).1 = ∅ ∧
  ¬ reports_failure empty_item (loadChatHistory empty_item).2.
Proof.
  repeat split. intros [text H]. vm_compute in H. discriminate H.
Qed.

(** C8, amended: the load returns the empty mapping when the key is missing,
    and also when the stored text is not JSON; a non-empty text that is not
    JSON is reported on the console, the empty text is passed over in
    silence.  The load always returns, and of the state it changes the console
    at most, so nothing reaches the conversation the user sees. *)
Theorem loadChatHistory_tolerant (s : State) :
  (chat_history_item (localStorage s) = None → loadChatHistory s = (∅, s)) ∧
  (∀ raw, chat_history_item (localStorage s) = Some (Js.NotJson raw) →
     (raw ≠ "" →
        loadChatHistory s = (∅, console_error "解析聊天记录失败:" s) ∧
        reports_failure s (loadChatHistory s).2) ∧
     (raw = "" → loadChatHistory s = (∅, s))) ∧
  (∀ t, chat_history_item (localStorage s) = Some t → Js.JSON_parse t = None →
     (loadChatHistory s).1 = ∅) ∧
  (let s' := (loadChatHistory s).2 in
   messageList s' = messageList s ∧
   currentAssistantMessage s' = currentAssistantMessage s ∧
   loading s' = loading s ∧
   localStorage s' = localStorage s).
Proof.
  split; [|split; [|split]].
  - intros H. unfold loadChatHistory. by rewrite H.
  - intros raw H. unfold loadChatHistory. rewrite H. cbn. split.
    + intros Hraw. apply truthy_true_iff in Hraw. rewrite Hraw.
      split; [done|]. by eexists.
    + by intros ->.
  - intros [v|raw] H Hp; [done|]. unfold loadChatHistory. rewrite H. cbn.
    by destruct (Js.truthy raw).
  - destruct (loadChatHistory_state s) as [-> | ->]; by cbn.
Qed.

Lemma loadChatHistory_tolerant_witness :
  loadChatHistory truncated_item
    = (∅, console_error "解析聊天记录失败:" truncated_item) ∧
  reports_failure truncated_item (loadChatHistory truncated_item).2.
Proof.
  destruct (loadChatHistory_tolerant truncated_item) as (_ & H & _).
  apply (H "{'buddha': [" eq_refl). discriminate.
Defined.

(** ** Settings *)

(** C9, on the code: after the settings are loaded, on a first visit as well
    as over settings saved by an older version, the provider selection and
    both providers' keys are undefined, so not every required field of the
    [Setting] type has a value, and no provider is the active one: neither
    radio button is checked. *)
Theorem loaded_settings_lack_provider :
  lacks_provider (setting (loadSetting (initial first_visit))) ∧
  lacks_provider (setting (loadSetting (initial older_store))).
Proof.
  split; unfold lacks_provider;
    (split; [vm_compute; reflexivity|]);
    (split; [vm_compute; reflexivity|]);
    (split; [vm_compute; reflexivity|]); split.
  1,3: intros H; apply Forall_cons in H as [[v Hv] _];
       vm_compute in Hv; discriminate Hv.
  all: repeat (apply Forall_cons; split; [vm_compute; reflexivity|]);
       apply Forall_nil_2.
Qed.

(** Once a provider has been chosen in the panel, it is the one active
    provider. *)
Lemma handleProviderChange_active (provider : string) (s : State) :
  ∀ p, provider_checked p (setting (handleProviderChange provider s)) = true
       ↔ p = provider.
Proof.
  intros p. unfold provider_checked, handleProviderChange, Js.spread. cbn.
  rewrite bool_decide_eq_true, lookup_union_l', lookup_singleton_eq;
    [|by rewrite lookup_singleton_eq].
  split; intros H; congruence.
Qed.

(** * Further properties *)

(** ** Archive, save and load *)

(** An archive either changes nothing or commits the buffer. *)
Lemma archiveCurrentMessage_cases (s : State) :
  archiveCurrentMessage s = s ∨
  ∃ r, currentRole s = Some r ∧
       currentAssistantMessage s ≠ "" ∧
       messageList (archiveCurrentMessage s)
         = messageList s ++ [says assistant (currentAssistantMessage s)] ∧
       persisted (archiveCurrentMessage s)
         = <[Role.role r := messageList s ++ [says assistant (currentAssistantMessage s)]]>
             (persisted s) ∧
       currentAssistantMessage (archiveCurrentMessage s) = "" ∧
       loading (archiveCurrentMessage s) = false ∧
       controller (archiveCurrentMessage s) = None ∧
       currentRole (archiveCurrentMessage s) = Some r ∧
       posted (archiveCurrentMessage s) = posted s.
Proof.
  destruct (currentRole s) as [r|] eqn:Hr.
  - destruct (decide (currentAssistantMessage s = "")) as [E|E].
    + left. apply archiveCurrentMessage_skip. by left.
    + right. exists r.
      destruct (archiveCurrentMessage_commit s r Hr E)
        as (H1 & H2 & H3 & H4 & H5 & H6 & _ & _ & H9).
      by repeat split.
  - left. apply archiveCurrentMessage_skip. by right.
Qed.

(** X1: archiving twice is archiving once: what an archive has committed, a
    second archive does not commit again. *)
Theorem archive_idempotent (s : State) :
  archiveCurrentMessage (archiveCurrentMessage s) = archiveCurrentMessage s.
Proof.
  destruct (archiveCurrentMessage_cases s) as [E|(r & _ & _ & _ & _ & Hb & _)].
  - by rewrite !E.
  - apply archiveCurrentMessage_skip. by left.
Qed.

(** X2: a load that follows a save returns the history loaded before the
    save with the saved list under the saved role, reports nothing and leaves
    the state as the save left it, also when the store held text that does
    not parse before the save. *)
Theorem load_after_save (s : State) (r : Role) (l : list ChatMessage) :
  let s' := saveCurrentMessages r l s in
  loadChatHistory s' = (<[Role.role r := l]> (persisted s), s') ∧
  persisted s' !! Role.role r = Some l ∧
  (∀ id, id ≠ Role.role r → persisted s' !! id = persisted s !! id) ∧
  console (loadChatHistory s').2 = console s'.
Proof.
  intros s'.
  assert (E : loadChatHistory s' = (<[Role.role r := l]> (persisted s), s')).
  { unfold s', saveCurrentMessages, persisted, structuredClone.
    by destruct (loadChatHistory s) as [h s1]. }
  split; [exact E|]. unfold persisted. rewrite E. cbn [fst snd].
  split; [apply lookup_insert_eq|]. split; [|done].
  intros id Hid. by rewrite lookup_insert_ne.
Qed.

(** ** Clear *)

(** X3: without a role a clear changes nothing.  With a role it makes the
    welcome message of the role the whole message list, persists that list
    under the role, leaving the entries of the other roles, and empties the
    partial buffer; it leaves the loading flag and the cancellation handle as
    they are, aborts no request and issues none.  A second clear changes
    neither the message list nor what is persisted. *)
Theorem clear_resets (s : State) :
  (currentRole s = None → clear s = s) ∧
  (∀ r, currentRole s = Some r →
     messageList (clear s) = [says assistant (Role.fc r)] ∧
     persisted (clear s) = <[Role.role r := [says assistant (Role.fc r)]]> (persisted s) ∧
     currentAssistantMessage (clear s) = "" ∧
     loading (clear s) = loading s ∧
     controller (clear s) = controller s ∧
     abortControllers (clear s) = abortControllers s ∧
     posted (clear s) = posted s ∧
     messageList (clear (clear s)) = messageList (clear s) ∧
     persisted (clear (clear s)) = persisted (clear s)).
Proof.
  split.
  - intros H. unfold clear. by rewrite H.
  - intros r Hr.
    assert (Hc : ∀ s0, currentRole s0 = Some r →
              messageList (clear s0) = [welcome r] ∧
              persisted (clear s0) = <[Role.role r := [welcome r]]> (persisted s0) ∧
              currentAssistantMessage (clear s0) = "" ∧
              loading (clear s0) = loading s0 ∧
              controller (clear s0) = controller s0 ∧
              abortControllers (clear s0) = abortControllers s0 ∧
              posted (clear s0) = posted s0 ∧
              currentRole (clear s0) = Some r).
    { intros s0 H0. unfold clear. rewrite H0.
      set (s1 := setCurrentAssistantMessage "" (setMessageList [welcome r] s0)).
      destruct (saveCurrentMessages_signals r [welcome r] s1)
        as (H1 & H2 & H3 & H4 & H5 & _ & _ & H8 & H9).
      rewrite persisted_saveCurrentMessages.
      rewrite H1, H2, H3, H4, H5, H8, H9.
      repeat split; try done.
      f_equal. by apply persisted_ext. }
    destruct (Hc s Hr) as (H1 & H2 & H3 & H4 & H5 & H6 & H7 & H8).
    destruct (Hc (clear s) H8) as (H1' & H2' & _).
    repeat split; try done.
    + by rewrite H1', H1.
    + rewrite H2', H2. apply insert_insert_eq.
Qed.

Lemma clear_resets_witness :
  messageList (clear mid_stream) = [says assistant "Welcome"] ∧
  persisted (clear mid_stream) !! "buddha" = Some [says assistant "Welcome"] ∧
  loading (clear mid_stream) = true ∧
  controller (clear mid_stream) = Some 0.
Proof.
  destruct (clear_resets mid_stream) as [_ H].
  destruct (H buddha eq_refl) as (H1 & H2 & _ & H4 & H5 & _).
  split; [exact H1|]. split; [rewrite H2; apply lookup_insert_eq|].
  split; [rewrite H4 | rewrite H5]; vm_compute; reflexivity.
Defined.

(** ** The messages of a request *)

Lemma requestMessageList_bounds (rs : list Role) (cur : Role) (l : list ChatMessage) :
  length (requestMessageList rs cur l) ≤ 15 ∧
  length (requestMessageList rs cur l) ≤ length l ∧
  Forall (λ m, Js.includes (ChatMessage.content m) errorMarker = false)
    (requestMessageList rs cur l).
Proof.
  rewrite requestMessageList_spec. unfold Spec.request_messages.
  set (kept := Spec.without_failed _).
  split; [|split].
  - destruct (decide (15 < length kept)) as [H|H].
    + by rewrite cap_length.
    + unfold Spec.cap. rewrite decide_False by done. lia.
  - apply sublist_length.
    etrans; [apply cap_sublist|]. etrans; [apply sublist_filter|].
    apply drop_leading_welcome_sublist.
  - apply Forall_forall. intros m Hm.
    assert (Hk : m ∈ kept) by (eapply elem_of_sublist; [exact Hm | apply cap_sublist]).
    unfold kept, Spec.without_failed in Hk.
    by apply list_elem_of_filter in Hk as [Hk _].
Qed.

Lemma requestMessageList_last (rs : list Role) (cur : Role)
    (l : list ChatMessage) (m : ChatMessage) :
  last l = Some m →
  ChatMessage.role m = user →
  Js.includes (ChatMessage.content m) errorMarker = false →
  last (requestMessageList rs cur l) = Some m.
Proof.
  intros Hl Hu Hm.
  rewrite requestMessageList_spec. unfold Spec.request_messages.
  set (w := Spec.role_welcome rs cur).
  assert (H1 : last (Spec.drop_leading_welcome w l) = Some m).
  { unfold Spec.drop_leading_welcome. destruct l as [|m0 rest]; [done|].
    destruct (decide (Some m0 = w)) as [E|_]; [|done].
    destruct rest as [|m1 rest]; [|done].
    simpl in Hl. injection Hl as ->.
    unfold w, Spec.role_welcome in E.
    destruct (head _) as [r|]; [|done]. simpl in E. injection E as ->.
    unfold welcome in Hu. simpl in Hu. discriminate. }
  set (l1 := Spec.drop_leading_welcome w l) in *.
  assert (H2 : last (Spec.without_failed l1) = Some m).
  { apply last_Some in H1 as [l' ->]. unfold Spec.without_failed.
    rewrite filter_app, filter_cons, decide_True by done.
    rewrite filter_nil. apply last_snoc. }
  set (kept := Spec.without_failed l1) in *.
  unfold Spec.cap. destruct (decide (15 < length kept)) as [H|_]; [|done].
  rewrite last_n_drop.
  apply last_Some in H2 as [l' E]. rewrite E in *.
  rewrite length_app in H. simpl in H.
  rewrite drop_app_le by (rewrite length_app; simpl; lia).
  rewrite app_assoc. apply last_snoc.
Qed.

(** X4: whatever the conversation, a request carries at most 15 messages
    and no more than the conversation has, none of them with the error
    marker; and when the last message of the conversation is the user's and
    has no error marker, it is the last message of the request. *)
Theorem request_keeps_latest (s : State) (cur : Role) (now : Z) :
  currentRole s = Some cur →
  ∃ body,
    posted (requestWithLatestMessage now s) = posted s ++ [body] ∧
    bounded_request body ∧
    length (body_messages body) ≤ length (messageList s) ∧
    (∀ m, last (messageList s) = Some m →
          ChatMessage.role m = user →
          Js.includes (ChatMessage.content m) errorMarker = false →
          last (body_messages body) = Some m).
Proof.
  intros Hr.
  destruct (requestWithLatestMessage_active now s cur Hr)
    as (_ & _ & _ & _ & _ & _ & _ & _ & _ & Hp).
  eexists. split; [exact Hp|]. cbn [body_messages]. unfold bounded_request.
  cbn [body_messages].
  destruct (requestMessageList_bounds (roles s) cur (messageList s)) as (H1 & H2 & H3).
  split; [by split|]. split; [exact H2|].
  intros m. apply requestMessageList_last.
Qed.

Lemma request_keeps_latest_witness :
  ∃ body,
    posted (requestWithLatestMessage noon long_talk) = posted long_talk ++ [body] ∧
    bounded_request body ∧
    last (body_messages body) = Some (says user "q10").
Proof.
  destruct (request_keeps_latest long_talk buddha noon eq_refl)
    as (body & Hp & Hb & _ & Hl).
  exists body. split; [exact Hp|]. split; [exact Hb|].
  apply Hl; vm_compute; reflexivity.
Defined.

(** ** Send *)

(** X5: a send with an empty input or without a role changes nothing.
    Otherwise it appends the input as a user message, persists the longer
    list under the role, empties the partial buffer, sets the loading flag
    and issues one request: for the same role, stamped with the time given,
    within the bounds of the request construction and, when the input has no
    error marker, with the input as its last message.  A key other than
    Enter, or Enter with Shift or during composition, changes nothing; a
    plain Enter is a send. *)
Theorem send_appends_and_requests (s : State) (inputValue : string) (now : Z) :
  (inputValue = "" ∨ currentRole s = None →
     handleButtonClick inputValue now s = s) ∧
  (∀ r, currentRole s = Some r → inputValue ≠ "" →
     let s' := handleButtonClick inputValue now s in
     let newMessages := messageList s ++ [says user inputValue] in
     messageList s' = newMessages ∧
     persisted s' !! Role.role r = Some newMessages ∧
     currentAssistantMessage s' = "" ∧
     loading s' = true ∧
     controller_aborted s' = false ∧
     ∃ body,
       posted s' = posted s ++ [body] ∧
       body_messages body = requestMessageList (roles s) r newMessages ∧
       body_setting body !! "role" = Some (Js.Str (Role.role r)) ∧
       body_time body = now ∧
       bounded_request body ∧
       (Js.includes inputValue errorMarker = false →
          last (body_messages body) = Some (says user inputValue))) ∧
  (∀ e : KeyboardEvent,
     (isComposing e = true ∨ shiftKey e = true ∨ key e ≠ "Enter" →
        handleKeydown e inputValue now s = s) ∧
     (isComposing e = false → shiftKey e = false → key e = "Enter" →
        handleKeydown e inputValue now s = handleButtonClick inputValue now s)).
Proof.
  split; [|split].
  - intros [-> | H]; unfold handleButtonClick.
    + by destruct (currentRole s).
    + by rewrite H.
  - intros r Hr Hin s' newMessages.
    set (s1 := saveCurrentMessages r newMessages (setMessageList newMessages s)).
    assert (E : s' = requestWithLatestMessage now s1).
    { unfold s', handleButtonClick. rewrite Hr.
      apply truthy_true_iff in Hin. by rewrite Hin. }
    destruct (saveCurrentMessages_signals r newMessages (setMessageList newMessages s))
      as (H1 & _ & _ & _ & H5 & H6 & H7 & _ & H9).
    fold s1 in H1, H5, H6, H7, H9. simpl in H1, H5, H6, H7, H9.
    rewrite Hr in H5.
    destruct (requestWithLatestMessage_active now s1 r H5)
      as (Hm & Hb & Hl & _ & _ & _ & _ & Hs & _ & Hp).
    assert (Hlive := requestWithLatestMessage_live now s1 r H5).
    rewrite <- E in Hm, Hb, Hl, Hs, Hp, Hlive.
    rewrite H1 in Hm. rewrite H1, H6, H7, H9 in Hp.
    split; [exact Hm|]. split.
    { rewrite (persisted_ext s' s1 Hs). unfold s1.
      rewrite persisted_saveCurrentMessages. apply lookup_insert_eq. }
    split; [exact Hb|]. split; [exact Hl|]. split; [exact Hlive|].
    eexists. split; [exact Hp|]. cbn [body_messages body_setting body_time].
    split; [done|]. split.
    { unfold Js.spread. apply lookup_union_Some_l, lookup_singleton_eq. }
    split; [done|].
    destruct (requestMessageList_bounds (roles s) r newMessages) as (B1 & _ & B3).
    split; [by split|].
    intros Hmk. apply requestMessageList_last; [apply last_snoc | done | done].
  - intros e. unfold handleKeydown. split.
    + intros [-> | [-> | H]]; [done | by rewrite orb_true_r |].
      destruct (_ || _); [done|].
      destruct (String.eqb_spec (key e) "Enter"); [done | done].
    + intros -> -> ->. reflexivity.
Qed.

Lemma send_appends_and_requests_witness :
  let s' := handleButtonClick "hi" noon fresh in
  messageList s' = [says assistant "Welcome"; says user "hi"] ∧
  loading s' = true ∧
  ∃ body,
    posted s' = posted fresh ++ [body] ∧
    last (body_messages body) = Some (says user "hi").
Proof.
  destruct (send_appends_and_requests fresh "hi" noon) as (_ & H & _).
  destruct (H buddha eq_refl) as (H1 & _ & _ & H4 & _ & body & Hp & _ & _ & _ & _ & Hl);
    [discriminate|].
  split; [exact H1|]. split; [exact H4|].
  exists body. split; [exact Hp|]. apply Hl. vm_compute. reflexivity.
Defined.

(** ** Switching roles *)

Lemma same_rest_trans (s s' s'' : State) :
  same_rest s s' → same_rest s' s'' → same_rest s s''.
Proof.
  intros (H1 & H2 & H3 & H4 & H5) (H1' & H2' & H3' & H4' & H5').
  repeat split; congruence.
Qed.

Lemma same_rest_saveCurrentMessages (r : Role) (l : list ChatMessage) (s : State) :
  same_rest s (saveCurrentMessages r l s).
Proof.
  destruct (saveCurrentMessages_signals r l s)
    as (_ & _ & _ & H4 & _ & H6 & H7 & H8 & H9).
  by repeat split.
Qed.

Lemma same_rest_loadChatHistory (s : State) : same_rest s (loadChatHistory s).2.
Proof. destruct (loadChatHistory_state s) as [-> | ->]; by repeat split. Qed.

(** What a switch leaves as it is, and what it does to the controllers. *)
Lemma handleRoleChange_rest (newRole : Role) (seed : option History) (s : State) :
  let s' := handleRoleChange newRole seed s in
  roles s' = roles s ∧
  setting s' = setting s ∧
  posted s' = posted s ∧
  abortControllers s'
  = match controller s with
    | Some c => <[c := true]> (abortControllers s)
    | None => abortControllers s
    end.
Proof.
  unfold handleRoleChange.
  set (s1 := match currentRole s with Some _ => _ | None => s end).
  assert (R1 : same_rest s s1).
  { unfold s1. destruct (currentRole s) as [oldRole|]; [|by repeat split].
    destruct (decide _); [apply same_rest_saveCurrentMessages | by repeat split]. }
  set (s2 := setCurrentRole (Some newRole) s1).
  assert (R2 : same_rest s s2).
  { eapply same_rest_trans; [exact R1 | by repeat split]. }
  set (p := match seed with Some h => (h, s2) | None => loadChatHistory s2 end).
  assert (R3 : same_rest s p.2).
  { unfold p. destruct seed as [h|]; [exact R2|].
    eapply same_rest_trans; [exact R2 | apply same_rest_loadChatHistory]. }
  destruct p as [history s3]. cbn [snd] in R3.
  set (s4 := match history !! Role.role newRole with Some (_ :: _) => _ | _ => _ end).
  assert (R4 : same_rest s s4).
  { assert (Rw : same_rest s
        (let s3' := setMessageList [welcome newRole] s3 in
         let '(newHistory, s3'') := loadChatHistory s3' in
         saveChatHistory (<[Role.role newRole := [welcome newRole]]> newHistory) s3'')).
    { cbv zeta.
      pose proof (same_rest_loadChatHistory (setMessageList [welcome newRole] s3)) as R.
      destruct (loadChatHistory (setMessageList [welcome newRole] s3)) as [h' s''].
      cbn [snd] in R.
      eapply same_rest_trans; [exact R3|].
      eapply same_rest_trans; [|eapply same_rest_trans; [exact R|]];
        by repeat split. }
    unfold s4. destruct (history !! Role.role newRole) as [[|m l]|];
      [exact Rw | | exact Rw].
    eapply same_rest_trans; [exact R3 | by repeat split]. }
  destruct R4 as (H1 & H2 & H3 & H4 & H5).
  unfold abort_controller. cbn [controller setLoading setCurrentAssistantMessage].
  rewrite H5. destruct (controller s) as [c|]; cbn; rewrite ?H1, ?H2, ?H3, ?H4;
    by repeat split.
Qed.

(** X6: a switch empties the partial buffer, clears the loading flag and the
    cancellation handle, and aborts the request in flight; it issues no
    request.  The partial text is given up: when the aborted fetch or read is
    then rejected, nothing is archived and the state stays as the switch left
    it. *)
Theorem switch_gives_up_the_stream (s : State) (newRole : Role)
    (seed : option History) (e : Js.Error) :
  Js.name e = "AbortError" →
  let s' := handleRoleChange newRole seed s in
  currentAssistantMessage s' = "" ∧
  loading s' = false ∧
  controller s' = None ∧
  posted s' = posted s ∧
  (∀ c, controller s = Some c → c < length (abortControllers s) →
        abortControllers s' !! c = Some true) ∧
  step s' (ReadSettled (ReadRejected e)) = s' ∧
  step s' (FetchSettled (FetchRejected e)) = s'.
Proof.
  intros He s'.
  destruct (handleRoleChange_spec newRole seed s) as (_ & Hb & Hl & Hc & _).
  destruct (handleRoleChange_rest newRole seed s) as (_ & _ & Hp & Ha).
  fold s' in Hb, Hl, Hc, Hp, Ha.
  assert (Hthrow : (request_throw e s').2 = s').
  { destruct (request_throw_abort e s' He) as [_ [E | [N _]]]; [exact E|].
    by rewrite Hb in N. }
  repeat split; try done.
  intros c Hcs Hlt. rewrite Ha, Hcs. by apply list_lookup_insert_eq.
Qed.

Lemma switch_gives_up_the_stream_witness :
  let s' := handleRoleChange manjushri None mid_stream in
  currentAssistantMessage s' = "" ∧
  abortControllers s' !! 0 = Some true ∧
  step s' (ReadSettled (ReadRejected AbortError)) = s'.
Proof.
  destruct (switch_gives_up_the_stream mid_stream manjushri None AbortError eq_refl)
    as (H1 & _ & _ & _ & H5 & H6 & _).
  split; [exact H1|]. split; [|exact H6].
  apply H5; vm_compute; [reflexivity | lia].
Defined.

(** X7: the slide handler does nothing when the slide shown is the one of the
    active role, or when there is no role at that index; in particular it
    leaves a stream in flight alone.  Handling the same slide change twice is
    handling it once. *)
Theorem slideChange_guard (s : State) (activeIndex : nat) :
  (roles s !! activeIndex = None → slideChange activeIndex s = s) ∧
  (∀ r cur, roles s !! activeIndex = Some r → currentRole s = Some cur →
            Role.role r = Role.role cur → slideChange activeIndex s = s) ∧
  slideChange activeIndex (slideChange activeIndex s) = slideChange activeIndex s.
Proof.
  split; [|split].
  - intros H. unfold slideChange. by rewrite H.
  - intros r cur Hr Hc E. unfold slideChange. rewrite Hr, Hc. simpl.
    rewrite decide_False; [done|]. intros N. apply N. by rewrite E.
  - unfold slideChange at 2 3.
    destruct (roles s !! activeIndex) as [newRole|] eqn:Hr.
    + destruct (decide _) as [N|N].
      * unfold slideChange.
        destruct (handleRoleChange_spec newRole None s) as (Hc & _).
        destruct (handleRoleChange_rest newRole None s) as (Hrs & _).
        rewrite Hrs, Hr, Hc. simpl. by rewrite decide_False by (intros M; by apply M).
      * unfold slideChange. rewrite Hr. by rewrite decide_False.
    + unfold slideChange. by rewrite Hr.
Qed.

Lemma slideChange_guard_witness :
  slideChange 0 mid_stream = mid_stream ∧ slideChange 7 mid_stream = mid_stream.
Proof.
  destruct (slideChange_guard mid_stream 0) as (_ & H & _).
  destruct (slideChange_guard mid_stream 7) as (H' & _).
  split; [apply (H buddha buddha); reflexivity | apply H'; reflexivity].
Defined.

(** X8: leaving a role and coming back restores its conversation.  When a
    role with a non-empty message list is left for another role, then,
    whatever happens while other roles are active, a switch back to it makes
    that list the message list again; when the list was empty, the switch
    back seeds the welcome message. *)
Theorem switch_round_trip (s : State) (A B : Role) (seed : option History)
    (events : list Event) :
  currentRole s = Some A →
  Role.role A ≠ Role.role B →
  let away := run (handleRoleChange B seed s) events in
  Forall (λ s', active_id s' ≠ Some (Role.role A))
         (visited (handleRoleChange B seed s) events) →
  let back := handleRoleChange A None away in
  currentRole back = Some A ∧
  (messageList s ≠ [] → messageList back = messageList s) ∧
  (messageList s = [] → messageList back = [says assistant (Role.fc A)]).
Proof.
  intros HA Hne away Hvis back.
  assert (Hp : persisted away !! Role.role A = Some (messageList s)).
  { unfold away. rewrite run_frame by done.
    by apply handleRoleChange_snapshot. }
  destruct (handleRoleChange_consults away A None) as (Hr & Hw & Hl).
  fold back in Hr, Hw, Hl. simpl in Hw, Hl.
  split; [exact Hr|]. split.
  - intros Hn. by apply Hl.
  - intros He. rewrite He in Hp. apply Hw. by right.
Qed.

Lemma switch_round_trip_witness :
  messageList (handleRoleChange buddha None
                 (run (handleRoleChange manjushri None mid_stream) with_manjushri))
  = messageList mid_stream.
Proof.
  destruct (switch_round_trip mid_stream buddha manjushri None with_manjushri eq_refl)
    as (_ & H & _).
  - discriminate.
  - repeat (apply Forall_cons; split; [discriminate|]). apply Forall_nil_2.
  - apply H. discriminate.
Defined.

(** ** Invariants of a run *)

Section Synced.

Implicit Types (s : State) (r : Role).

Lemma synced_same s s' :
  currentRole s' = currentRole s →
  messageList s' = messageList s →
  localStorage s' = localStorage s →
  synced s → synced s'.
Proof.
  intros Hr Hm Hs H r Hr'. rewrite (persisted_ext s' s Hs), Hm.
  apply H. congruence.
Qed.

Lemma synced_archiveCurrentMessage s : synced s → synced (archiveCurrentMessage s).
Proof.
  intros H.
  destruct (archiveCurrentMessage_cases s)
    as [-> | (r & _ & _ & Hm & Hp & _ & _ & _ & Hr & _)]; [done|].
  intros r' Hr'. rewrite Hr in Hr'. injection Hr' as <-.
  rewrite Hp, Hm. apply lookup_insert_eq.
Qed.

Lemma synced_requestWithLatestMessage now s :
  synced s → synced (requestWithLatestMessage now s).
Proof.
  destruct (currentRole s) as [r|] eqn:Hr.
  - destruct (requestWithLatestMessage_active now s r Hr)
      as (Hm & _ & _ & _ & _ & Hr' & _ & Hs & _).
    apply synced_same; congruence.
  - unfold requestWithLatestMessage. by rewrite Hr.
Qed.

Lemma synced_save s r (l : list ChatMessage) :
  currentRole s = Some r →
  synced (saveCurrentMessages r l (setMessageList l s)).
Proof.
  intros Hr r' Hr'.
  destruct (saveCurrentMessages_signals r l (setMessageList l s))
    as (Hm & _ & _ & _ & H5 & _).
  rewrite H5 in Hr'. simpl in Hr'. rewrite Hr in Hr'. injection Hr' as <-.
  rewrite persisted_saveCurrentMessages, Hm. apply lookup_insert_eq.
Qed.

Lemma synced_request_finally s : synced s → synced (request_finally s).
Proof.
  unfold request_finally. destruct (negb _); [apply synced_archiveCurrentMessage | done].
Qed.

Lemma synced_request_throw e s : synced s → synced (request_throw e s).2.
Proof.
  intros H. apply synced_request_finally. unfold request_catch.
  destruct (decide _); [|done]. by apply (synced_same s).
Qed.

Lemma synced_handleRoleChange newRole s : synced (handleRoleChange newRole None s).
Proof.
  intros r Hr.
  destruct (handleRoleChange_spec newRole None s) as (Hr' & _ & _ & _ & H).
  rewrite Hr' in Hr. injection Hr as <-. simpl in H.
  destruct (after_snapshot newRole s !! Role.role newRole) as [[|m l]|] eqn:E;
    destruct H as [-> ->]; by rewrite ?lookup_insert_eq.
Qed.

Lemma synced_step s (e : Event) : ¬ seeded e → synced s → synced (step s e).
Proof.
  intros He H.
  destruct e as [newRole [h|]|activeIndex|inputValue now| | | |now|res|res];
    cbn [step].
  - by destruct He.
  - apply synced_handleRoleChange.
  - unfold slideChange. destruct (roles s !! activeIndex) as [newRole|]; [|done].
    destruct (decide _); [apply synced_handleRoleChange | done].
  - unfold handleButtonClick. destruct (currentRole s) as [r|] eqn:Hr; [|done].
    destruct (Js.truthy inputValue); [|done].
    by apply synced_requestWithLatestMessage, synced_save.
  - by apply synced_archiveCurrentMessage.
  - unfold clear. destruct (currentRole s) as [r|] eqn:Hr; [|done].
    intros r' Hr'.
    set (s1 := setCurrentAssistantMessage "" (setMessageList [welcome r] s)) in *.
    destruct (saveCurrentMessages_signals r [welcome r] s1) as (Hm & _ & _ & _ & H5 & _).
    rewrite H5 in Hr'. simpl in Hr'. rewrite Hr in Hr'. injection Hr' as <-.
    rewrite persisted_saveCurrentMessages, Hm. apply lookup_insert_eq.
  - unfold stopStreamFetch. destruct (controller s) as [c|]; [|done].
    apply synced_archiveCurrentMessage. by apply (synced_same s).
  - unfold retryLastFetch. destruct (currentRole s) as [r|] eqn:Hr; [|done].
    destruct (0 <? _); [|done].
    destruct (_ !! _) as [lastMessage|]; [|done].
    destruct (decide _); [|done].
    by apply synced_requestWithLatestMessage, synced_save.
  - destruct res as [e|status statusText body]; cbn [fetchSettled].
    + by apply synced_request_throw.
    + destruct (negb (response_ok status)); [by apply synced_request_throw|].
      destruct (negb body); [by apply synced_request_throw | done].
  - destruct res as [e|[char|] done]; cbn [readSettled].
    + by apply synced_request_throw.
    + destruct (_ && _); [done|].
      destruct (Js.truthy char); destruct done; cbn [snd]; try done;
        try apply synced_request_finally; try done; by apply (synced_same s).
    + destruct done; cbn [snd]; [by apply synced_request_finally | done].
Qed.

Lemma synced_onMount (fetchedRoles : list Role) s :
  currentRole s = None → synced (onMount fetchedRoles s).
Proof.
  intros Hn. destruct fetchedRoles as [|R rest].
  - intros r Hr. unfold onMount in Hr. simpl in Hr.
    unfold loadSetting in Hr.
    destruct (setting_item (localStorage s)) as [t|]; [|simpl in Hr; congruence].
    destruct (Js.text_truthy t); [|simpl in Hr; congruence].
    destruct (Js.JSON_parse t); simpl in Hr; congruence.
  - destruct (onMount_seed R rest s) as (s2 & Hp & ->).
    intros r Hr.
    pose proof (handleRoleChange_spec R (Some (persisted s)) s2) as H.
    set (s' := handleRoleChange R (Some (persisted s)) s2) in *.
    destruct H as (Hr' & _ & _ & _ & H).
    rewrite Hr' in Hr. injection Hr as <-.
    change (default (after_snapshot R s2) (Some (persisted s)))
      with (persisted s) in H.
    assert (Ha : after_snapshot R s2 !! Role.role R = persisted s !! Role.role R).
    { unfold after_snapshot. rewrite Hp.
      destruct (currentRole s2) as [old|]; [|done].
      destruct (decide _); [by rewrite lookup_insert_ne | done]. }
    destruct (persisted s !! Role.role R) as [[|m l]|] eqn:E;
      destruct H as [-> ->]; by rewrite ?lookup_insert_eq, ?Ha.
Qed.

End Synced.

(** X9: the message list mirrors the store.  From the mount of the
    component on, through any sequence of handler calls and settled promises
    (the switch with a seed is the mount's own), the current message list is
    what is persisted under the identifier of the active role. *)
Theorem message_list_is_persisted (ls : LocalStorage) (fetchedRoles : list Role)
    (events : list Event) :
  Forall (λ e, ¬ seeded e) events →
  synced (run (onMount fetchedRoles (initial ls)) events).
Proof.
  intros H.
  assert (H0 : synced (onMount fetchedRoles (initial ls))) by by apply synced_onMount.
  revert H0. generalize (onMount fetchedRoles (initial ls)).
  induction H as [|e events He _ IH]; intros s Hs; [done|].
  apply (IH (step s e)). by apply synced_step.
Qed.

Lemma message_list_is_persisted_witness :
  persisted (run fresh with_manjushri) !! "buddha"
  = Some (messageList (run fresh with_manjushri)).
Proof.
  assert (H : Forall (λ e, ¬ seeded e) with_manjushri).
  { repeat (apply Forall_cons; split; [by intros []|]). apply Forall_nil_2. }
  apply (message_list_is_persisted first_visit [buddha] with_manjushri H buddha).
  vm_compute. reflexivity.
Defined.

(** ** Loading flag and requests *)

Lemma request_finally_cases (s : State) :
  request_finally s = s ∨
  currentAssistantMessage s ≠ "" ∧
  messageList (request_finally s)
    = messageList s ++ [says assistant (currentAssistantMessage s)] ∧
  posted (request_finally s) = posted s.
Proof.
  unfold request_finally. destruct (negb _); [|by left].
  destruct (archiveCurrentMessage_cases s)
    as [E | (r & _ & Hb & Hm & _ & _ & _ & _ & _ & Hp)]; [by left | by right].
Qed.

(** The result of a continuation: a state with the loading flag and the
    message list of the state before, possibly followed by a commit. *)
Lemma continuation_cases (s : State) (e : Event) :
  is_continuation e →
  ∃ s1, loading s1 = loading s ∧ messageList s1 = messageList s ∧
        posted s1 = posted s ∧
        (step s e = s1 ∨ step s e = request_finally s1).
Proof.
  intros He. destruct e as [| | | | | | |res|res]; try done; cbn [step].
  - assert (Ht : ∀ err, ∃ s1, loading s1 = loading s ∧ messageList s1 = messageList s ∧
               posted s1 = posted s ∧
               ((request_throw err s).2 = s1 ∨ (request_throw err s).2 = request_finally s1)).
    { intros err. exists (request_catch err s). unfold request_throw, request_catch.
      destruct (decide _); (split; [done|]); (split; [done|]); (split; [done|]);
        by right. }
    destruct res as [err|status statusText body]; cbn [fetchSettled]; [apply Ht|].
    destruct (negb (response_ok status)); [apply Ht|].
    destruct (negb body); [apply Ht|].
    exists s. (split; [done|]); (split; [done|]); (split; [done|]). by left.
  - destruct res as [err|[char|] done]; cbn [readSettled].
    + exists (request_catch err s). unfold request_throw, request_catch.
      destruct (decide _); (split; [done|]); (split; [done|]); (split; [done|]);
        by right.
    + destruct (_ && _).
      { exists s. (split; [done|]); (split; [done|]); (split; [done|]). by left. }
      destruct (Js.truthy char).
      * eexists (setCurrentAssistantMessage _ s).
        (split; [done|]); (split; [done|]); (split; [done|]).
        destruct done; [by right | by left].
      * exists s. (split; [done|]); (split; [done|]); (split; [done|]).
        destruct done; [by right | by left].
    + exists s. (split; [done|]); (split; [done|]); (split; [done|]).
      destruct done; [by right | by left].
Qed.

Lemma requestWithLatestMessage_loading (now : Z) (s : State) :
  loading s = true → loading (requestWithLatestMessage now s) = true.
Proof.
  intros H. destruct (currentRole s) as [r|] eqn:Hr.
  - by destruct (requestWithLatestMessage_active now s r Hr) as (_ & _ & Hl & _).
  - unfold requestWithLatestMessage. by rewrite Hr.
Qed.

(** A request issued right after a save, for the role saved. *)
Lemma save_then_request (s : State) (r : Role) (l : list ChatMessage) (now : Z) :
  currentRole s = Some r →
  let s' := requestWithLatestMessage now (saveCurrentMessages r l (setMessageList l s)) in
  loading s' = true ∧
  posted s' = posted s ++
    [ {| body_setting := Js.spread (setting s) {[ "role" := Js.Str (Role.role r) ]};
         body_messages := requestMessageList (roles s) r l;
         body_time := now |} ].
Proof.
  intros Hr s'.
  set (s1 := saveCurrentMessages r l (setMessageList l s)) in *.
  destruct (saveCurrentMessages_signals r l (setMessageList l s))
    as (H1 & _ & _ & _ & H5 & H6 & H7 & _ & H9).
  fold s1 in H1, H5, H6, H7, H9. simpl in H1, H5, H6, H7, H9. rewrite Hr in H5.
  destruct (requestWithLatestMessage_active now s1 r H5)
    as (_ & _ & Hl & _ & _ & _ & _ & _ & _ & Hp).
  fold s' in Hl, Hp. rewrite H1, H6, H7, H9 in Hp. by split.
Qed.

(** X10: the loading flag goes down only with a commit or a switch.  When
    an event other than a switch of role finds the flag set and leaves it
    cleared, it has appended one assistant message with a non-empty text to
    the message list. *)
Theorem loading_cleared_by_commit (s : State) (e : Event) :
  loading s = true →
  loading (step s e) = false →
  is_switch e ∨
  ∃ text, text ≠ "" ∧ messageList (step s e) = messageList s ++ [says assistant text].
Proof.
  intros Hon Hoff.
  assert (Hfin : ∀ s1, loading s1 = true → messageList s1 = messageList s →
            loading (request_finally s1) = false →
            ∃ text, text ≠ "" ∧
              messageList (request_finally s1) = messageList s ++ [says assistant text]).
  { intros s1 Hl Hm H.
    destruct (request_finally_cases s1) as [E | (Hb & Hm' & _)]; [congruence|].
    exists (currentAssistantMessage s1). by rewrite Hm', Hm. }
  destruct e as [newRole seed|activeIndex|inputValue now| | | |now|res|res].
  - by left.
  - by left.
  - right. exfalso. cbn [step] in Hoff. unfold handleButtonClick in Hoff.
    destruct (currentRole s) as [r|] eqn:Hr; [|congruence].
    destruct (Js.truthy inputValue); [|congruence].
    destruct (save_then_request s r (messageList s ++ [says user inputValue]) now Hr)
      as [Hl _].
    unfold says in Hl. congruence.
  - right. cbn [step] in *.
    destruct (archiveCurrentMessage_cases s)
      as [E | (r & _ & Hb & Hm & _)]; [congruence|].
    by exists (currentAssistantMessage s).
  - right. exfalso. cbn [step] in Hoff. unfold clear in Hoff.
    destruct (currentRole s) as [r|]; [|congruence].
    match type of Hoff with
    | loading (saveCurrentMessages ?r ?l ?s0) = _ =>
        destruct (saveCurrentMessages_signals r l s0) as (_ & _ & H3 & _)
    end.
    rewrite H3 in Hoff. simpl in Hoff. congruence.
  - right. cbn [step] in *. unfold stopStreamFetch in *.
    destruct (controller s) as [c|]; [|congruence].
    destruct (archiveCurrentMessage_cases (abort c s))
      as [E | (r & _ & Hb & Hm & _)].
    + rewrite E in Hoff. simpl in Hoff. congruence.
    + by exists (currentAssistantMessage s).
  - right. exfalso. cbn [step] in Hoff. unfold retryLastFetch in Hoff.
    destruct (currentRole s) as [r|] eqn:Hr; [|congruence].
    destruct (0 <? _); [|congruence].
    destruct (_ !! _) as [lastMessage|]; [|congruence].
    destruct (decide _); [|congruence].
    destruct (save_then_request s r (Js.slice 0 (Some (-1)%Z) (messageList s)) now Hr)
      as [Hl _].
    congruence.
  - right.
    destruct (continuation_cases s (FetchSettled res) I)
      as (s1 & Hl & Hm & _ & [E|E]); rewrite E in *; [congruence|].
    apply Hfin; congruence.
  - right.
    destruct (continuation_cases s (ReadSettled res) I)
      as (s1 & Hl & Hm & _ & [E|E]); rewrite E in *; [congruence|].
    apply Hfin; congruence.
Qed.

Lemma loading_cleared_by_commit_witness :
  ∃ text, text ≠ "" ∧
    messageList (step mid_stream end_of_stream)
    = messageList mid_stream ++ [says assistant text].
Proof.
  destruct (loading_cleared_by_commit mid_stream end_of_stream) as [[]|H];
    [vm_compute; reflexivity | vm_compute; reflexivity | exact H].
Defined.

(** X11: a request that ends without any text leaves the loading flag set.
    When the user stops a request before the first text has arrived and the
    aborted fetch is rejected, nothing is archived, the flag stays set and the
    aborted controller stays the current one; a further stop changes
    nothing.  Likewise a response whose stream ends without text leaves the
    state as the request set it, with the flag set. *)
Theorem request_without_text_keeps_loading (s : State) (r : Role) (now : Z)
    (e : Js.Error) :
  currentRole s = Some r →
  Js.name e = "AbortError" →
  let s0 := requestWithLatestMessage now s in
  let stopped := run s0 [Stop; FetchSettled (FetchRejected e)] in
  loading stopped = true ∧
  controller stopped = controller s0 ∧
  controller_aborted stopped = true ∧
  messageList stopped = messageList s ∧
  step stopped Stop = stopped ∧
  run s0 [ok_response; end_of_stream] = s0 ∧
  loading s0 = true.
Proof.
  intros Hr He s0 stopped.
  destruct (requestWithLatestMessage_active now s r Hr)
    as (Hm & Hb & Hl & Hc & Ha & _).
  fold s0 in Hm, Hb, Hl, Hc, Ha.
  assert (Hlive := requestWithLatestMessage_live now s r Hr). fold s0 in Hlive.
  set (c := length (abortControllers s)) in *.
  set (sa := abort c s0).
  assert (Hab : controller_aborted sa = true).
  { unfold controller_aborted, sa. cbn. rewrite Hc, Ha.
    rewrite list_lookup_insert_eq; [done|]. rewrite length_app. simpl. lia. }
  assert (Hskip : archiveCurrentMessage sa = sa).
  { apply archiveCurrentMessage_skip. by left. }
  assert (E : stopped = sa).
  { unfold stopped. cbn [run fold_left step]. unfold stopStreamFetch.
    rewrite Hc. fold sa. rewrite Hskip. cbn [fetchSettled].
    unfold request_throw, request_catch, request_finally.
    rewrite decide_False by (intros N; by apply N). cbn [snd]. by rewrite Hab. }
  rewrite E. repeat split; try done.
  - cbn [step]. unfold stopStreamFetch.
    change (controller sa) with (controller s0). rewrite Hc.
    assert (Hidem : abort c sa = sa).
    { unfold sa, abort, with_abortControllers. cbn.
      by rewrite list_insert_insert_eq. }
    by rewrite Hidem.
  - cbn. unfold request_finally. rewrite Hlive. cbn.
    apply archiveCurrentMessage_skip. by left.
Qed.

Lemma request_without_text_keeps_loading_witness :
  let s0 := requestWithLatestMessage noon fresh in
  loading (run s0 [Stop; FetchSettled (FetchRejected AbortError)]) = true ∧
  run s0 [ok_response; end_of_stream] = s0.
Proof.
  destruct (request_without_text_keeps_loading fresh buddha noon AbortError
              eq_refl eq_refl) as (H1 & _ & _ & _ & _ & H6 & _).
  by split.
Defined.

Lemma bounded_requestMessageList (rs : list Role) (r : Role)
    (l : list ChatMessage) (st : Js.Object) (now : Z) :
  bounded_request
    {| body_setting := st; body_messages := requestMessageList rs r l; body_time := now |}.
Proof.
  destruct (requestMessageList_bounds rs r l) as (H1 & _ & H3). by split.
Qed.

(** One event issues no request or one, and that one is bounded. *)
Lemma step_posts (s : State) (e : Event) :
  posted (step s e) = posted s ∨
  issues_request e ∧
  ∃ body, posted (step s e) = posted s ++ [body] ∧ bounded_request body.
Proof.
  destruct e as [newRole seed|activeIndex|inputValue now| | | |now|res|res];
    cbn [step].
  - left. by destruct (handleRoleChange_rest newRole seed s) as (_ & _ & H & _).
  - left. unfold slideChange. destruct (roles s !! activeIndex) as [newRole|]; [|done].
    destruct (decide _); [|done].
    by destruct (handleRoleChange_rest newRole None s) as (_ & _ & H & _).
  - unfold handleButtonClick. destruct (currentRole s) as [r|] eqn:Hr; [|by left].
    destruct (Js.truthy inputValue); [|by left].
    right. split; [done|]. eexists. split; [by apply save_then_request|].
    apply bounded_requestMessageList.
  - left. by destruct (archiveCurrentMessage_cases s)
      as [-> | (r & _ & _ & _ & _ & _ & _ & _ & _ & H)].
  - left. unfold clear. destruct (currentRole s) as [r|]; [|done].
    match goal with
    | |- posted (saveCurrentMessages ?r ?l ?s0) = _ =>
        by destruct (saveCurrentMessages_signals r l s0)
          as (_ & _ & _ & _ & _ & _ & _ & _ & ->)
    end.
  - left. unfold stopStreamFetch. destruct (controller s) as [c|]; [|done].
    by destruct (archiveCurrentMessage_cases (abort c s))
      as [-> | (r & _ & _ & _ & _ & _ & _ & _ & _ & ->)].
  - unfold retryLastFetch. destruct (currentRole s) as [r|] eqn:Hr; [|by left].
    destruct (0 <? _); [|by left].
    destruct (_ !! _) as [lastMessage|]; [|by left].
    destruct (decide _); [|by left].
    right. split; [done|]. eexists. split; [by apply save_then_request|].
    apply bounded_requestMessageList.
  - left. destruct (continuation_cases s (FetchSettled res) I)
      as (s1 & _ & _ & Hp & [E|E]); cbn [step] in E; rewrite E; [done|].
    by destruct (request_finally_cases s1) as [-> | (_ & _ & ->)].
  - left. destruct (continuation_cases s (ReadSettled res) I)
      as (s1 & _ & _ & Hp & [E|E]); cbn [step] in E; rewrite E; [done|].
    by destruct (request_finally_cases s1) as [-> | (_ & _ & ->)].
Qed.

(** X12: requests are issued one at a time and stay within bounds.  Over
    any sequence of events the requests issued are no more than the events,
    none is issued by a switch, a clear, a stop, an archive or a settled
    promise, and each of them carries at most 15 messages, none with the
    error marker. *)
Theorem requests_are_bounded (s : State) (events : list Event) :
  ∃ bodies,
    posted (run s events) = posted s ++ bodies ∧
    length bodies ≤ length events ∧
    Forall bounded_request bodies ∧
    (Forall (λ e, ¬ issues_request e) events → bodies = []).
Proof.
  revert s. induction events as [|e events IH]; intros s.
  - exists []. simpl. by rewrite app_nil_r.
  - destruct (IH (step s e)) as (bodies & Hp & Hl & Hb & Hn).
    change (run s (e :: events)) with (run (step s e) events).
    destruct (step_posts s e) as [E | (Hi & body & E & Hbody)].
    + exists bodies. rewrite Hp, E. repeat split; [simpl; lia | done |].
      intros H. apply Forall_cons in H as [_ H]. by apply Hn.
    + exists (body :: bodies). rewrite Hp, E, <- app_assoc.
      repeat split; [simpl; lia | by apply Forall_cons |].
      intros H. by apply Forall_cons in H as [He _].
Qed.

Lemma requests_are_bounded_witness :
  posted (run mid_stream [Clear; Stop; ReadSettled (ReadRejected AbortError)])
  = posted mid_stream.
Proof.
  destruct (requests_are_bounded mid_stream
              [Clear; Stop; ReadSettled (ReadRejected AbortError)])
    as (bodies & Hp & _ & _ & Hn).
  rewrite Hp, Hn; [by rewrite app_nil_r|].
  repeat (apply Forall_cons; split; [by intros []|]). apply Forall_nil_2.
Defined.

(** ** Before a role is active *)

(** X13: with an empty registry the component waits.  Mounted with no role
    fetched, it has no active role, no messages and no request in flight, and
    leaves the stored history alone; and in any state without role, without
    request and with an empty registry, the controls of the view (slide,
    send, clear, stop, retry) and an archive change nothing: nothing is
    sent, nothing is persisted. *)
Theorem waiting_without_roles :
  (∀ ls : LocalStorage,
     let s := onMount [] (initial ls) in
     currentRole s = None ∧ controller s = None ∧ roles s = [] ∧
     messageList s = [] ∧ posted s = [] ∧
     chat_history_item (localStorage s) = chat_history_item ls) ∧
  (∀ (s : State) (events : list Event),
     currentRole s = None → controller s = None → roles s = [] →
     Forall from_controls events →
     run s events = s).
Proof.
  split.
  - intros ls s. unfold s, onMount, loadSetting. cbn.
    destruct (setting_item ls) as [t|]; [|done].
    destruct (Js.text_truthy t); [|done].
    by destruct (Js.JSON_parse t).
  - intros s events Hr Hc Hrs H.
    induction H as [|e events He _ IH]; [done|].
    change (run s (e :: events)) with (run (step s e) events).
    assert (E : step s e = s); [|by rewrite E].
    destruct e as [|activeIndex|inputValue now| | | |now| |]; try done; cbn [step].
    + unfold slideChange. by rewrite Hrs.
    + unfold handleButtonClick. by rewrite Hr.
    + apply archiveCurrentMessage_skip. by right.
    + unfold clear. by rewrite Hr.
    + unfold stopStreamFetch. by rewrite Hc.
    + unfold retryLastFetch. by rewrite Hr.
Qed.

Lemma waiting_without_roles_witness :
  let s := onMount [] (initial first_visit) in
  run s [ButtonClick "hi" noon; Retry noon; Stop; Clear; SlideChange 0] = s.
Proof.
  destruct waiting_without_roles as [_ H].
  apply H; try reflexivity.
  repeat (apply Forall_cons; split; [exact I|]). apply Forall_nil_2.
Defined.

(** ** The retry button *)

Lemma retryLastFetch_acts (s : State) (r : Role) (now : Z)
    (l : list ChatMessage) (m : ChatMessage) :
  currentRole s = Some r →
  messageList s = l ++ [m] →
  ChatMessage.role m = assistant →
  retryLastFetch now s
  = requestWithLatestMessage now (saveCurrentMessages r l (setMessageList l s)).
Proof.
  intros Hr Hl Hm. unfold retryLastFetch. rewrite Hr, Hl, lookup_last_snoc.
  rewrite decide_True by done. rewrite slice_but_last.
  rewrite length_app. simpl.
  by replace (0 <? length l + 1) with true by (symmetry; apply Nat.ltb_lt; lia).
Qed.

(** X14: the retry button is shown on one message at most: the last one,
    when it is the assistant's and nothing is loading.  With a role active,
    a retry then removes exactly the message that shows the button, sets the
    loading flag, and no message shows the button any more. *)
Theorem retry_button (s : State) (index : nat) :
  showRetry index s = true →
  loading s = false ∧
  S index = length (messageList s) ∧
  (∀ j, showRetry j s = true → j = index) ∧
  (∀ r now, currentRole s = Some r →
     messageList (retryLastFetch now s) = take index (messageList s) ∧
     loading (retryLastFetch now s) = true ∧
     ∀ j, showRetry j (retryLastFetch now s) = false).
Proof.
  assert (Hshow : ∀ s0 j, showRetry j s0 = true →
            loading s0 = false ∧ S j = length (messageList s0) ∧
            ∃ m, messageList s0 !! j = Some m ∧ ChatMessage.role m = assistant).
  { intros s0 j H. unfold showRetry in H.
    destruct (messageList s0 !! j) as [m|] eqn:E; [|done].
    apply andb_true_iff in H as [H H3]. apply andb_true_iff in H as [H1 H2].
    apply bool_decide_eq_true in H1. apply Z.eqb_eq in H2.
    apply negb_true_iff in H3. apply lookup_lt_Some in E as Hlt.
    split; [done|]. split; [lia|]. by exists m. }
  intros H. destruct (Hshow s index H) as (Hl & Hlen & m & Hm & Ha).
  split; [done|]. split; [done|]. split.
  - intros j Hj. destruct (Hshow s j Hj) as (_ & Hj' & _). lia.
  - intros r now Hr.
    assert (E : messageList s = take index (messageList s) ++ [m]).
    { rewrite <- (take_drop index (messageList s)) at 1. f_equal.
      rewrite (drop_S _ m) by done. rewrite drop_ge by lia. done. }
    rewrite (retryLastFetch_acts s r now _ m Hr E Ha).
    set (l := take index (messageList s)).
    set (s1 := saveCurrentMessages r l (setMessageList l s)).
    destruct (saveCurrentMessages_signals r l (setMessageList l s))
      as (H1 & _ & _ & _ & H5 & _).
    fold s1 in H1, H5. simpl in H1, H5. rewrite Hr in H5.
    destruct (requestWithLatestMessage_active now s1 r H5) as (Hm' & _ & Hl' & _).
    rewrite H1 in Hm'. split; [done|]. split; [done|].
    intros j. unfold showRetry. rewrite Hl'.
    destruct (_ !! j); [|done]. by rewrite andb_false_r.
Qed.

Lemma retry_button_witness :
  messageList (retryLastFetch noon answered) = take 2 (messageList answered).
Proof.
  destruct (retry_button answered 2) as (_ & _ & _ & H);
    [vm_compute; reflexivity|].
  apply (H buddha noon). vm_compute. reflexivity.
Defined.

(** ** Export *)

(** X15: the export offers nothing without a role or without messages.
    Otherwise the file is named after the role and its text is the lines,
    one for each message in the order of the conversation, joined by an empty
    line; each line is the content of its message behind the label of the
    speaker: the role's identifier for the assistant, 善知识 for the user, the
    tag itself for any other speaker. *)
Theorem export_lines (s : State) :
  (exportToMarkdown s = None ↔ currentRole s = None ∨ messageList s = []) ∧
  (∀ d, exportToMarkdown s = Some d →
     ∃ role lines,
       currentRole s = Some role ∧
       download d = Role.role role +:+ "-对话记录.md" ∧
       markdown d = String.concat (Js.newline +:+ Js.newline) lines ∧
       length lines = length (messageList s) ∧
       ∀ i message, messageList s !! i = Some message →
         lines !! i
         = Some ("**" +:+ speaker_label role (ChatMessage.role message) +:+ ":** "
                 +:+ ChatMessage.content message)).
Proof.
  unfold exportToMarkdown. split.
  - destruct (currentRole s) as [role|]; [|split; [by left | done]].
    destruct (messageList s) as [|m l]; simpl; split; try done.
    + by right.
    + by intros [?|?].
  - intros d H. destruct (currentRole s) as [role|]; [|done].
    destruct (length (messageList s) =? 0); [done|].
    injection H as <-. exists role, (markdownLine role <$> messageList s).
    split; [done|]. split; [done|]. split; [done|].
    split; [by rewrite length_fmap|].
    intros i [speaker text] Hi. rewrite list_lookup_fmap, Hi. simpl.
    f_equal. unfold markdownLine. by destruct speaker.
Qed.

Lemma export_lines_witness :
  ∃ d, exportToMarkdown answered = Some d ∧
       download d = "buddha-对话记录.md" ∧
       markdown d
       = "**buddha:** Welcome" +:+ Js.newline +:+ Js.newline +:+
         "**善知识:** hi" +:+ Js.newline +:+ Js.newline +:+
         "**buddha:** partial answer".
Proof.
  destruct (exportToMarkdown answered) as [d|] eqn:E; [|by vm_compute in E].
  destruct (proj2 (export_lines answered) d E) as (role & lines & _).
  exists d. split; [done|]. vm_compute in E. injection E as <-. by split.
Defined.

(** ** Settings *)

Lemma spread_lookup (a b : Js.Object) (k : string) :
  Js.spread a b !! k = match b !! k with Some v => Some v | None => a !! k end.
Proof.
  unfold Js.spread. destruct (b !! k) as [v|] eqn:E.
  - by apply lookup_union_Some_l.
  - by rewrite lookup_union_r.
Qed.

(** X16: loading the settings.  Stored settings that parse replace the
    settings field by field, a field they lack taking its default; a missing
    item and the empty string leave the state as it is; any other text that
    does not parse leaves the settings as they are and is logged.  What the
    effect on the settings has written is read back on the next visit: every
    field the settings had comes back with its value. *)
Theorem settings_load (s : State) :
  (∀ parsed, setting_item (localStorage s) = Some (Js.Json parsed) →
     ∀ k, setting (loadSetting s) !! k
          = match parsed !! k with Some v => Some v | None => defaultSetting !! k end) ∧
  (setting_item (localStorage s) = None ∨
   setting_item (localStorage s) = Some (Js.NotJson "") → loadSetting s = s) ∧
  (∀ raw, setting_item (localStorage s) = Some (Js.NotJson raw) → raw ≠ "" →
     loadSetting s = console_log "Setting parse error" s) ∧
  (∀ k v, setting s !! k = Some v →
     setting (loadSetting (next_visit (settingEffect s))) !! k = Some v) ∧
  chat_history_item (localStorage (settingEffect s)) = chat_history_item (localStorage s).
Proof.
  split; [|split; [|split; [|split]]].
  - intros parsed H k. unfold loadSetting. rewrite H. cbn. apply spread_lookup.
  - intros [H|H]; unfold loadSetting; by rewrite H.
  - intros raw H Hraw. unfold loadSetting. rewrite H. cbn.
    apply truthy_true_iff in Hraw. by rewrite Hraw.
  - intros k v H. cbn. by rewrite spread_lookup, H.
  - done.
Qed.

Lemma settings_load_witness :
  setting (loadSetting (initial older_store)) !! "openaiAPITemperature"
  = Some (Js.Num 60).
Proof.
  destruct (settings_load (initial older_store)) as [H _].
  rewrite (H older_settings eq_refl). reflexivity.
Defined.

(** X17: choosing a provider makes it the one provider that is checked and
    whose key input is shown, and changes no other field of the settings;
    typing a key or a rule sets its own field and changes none of the others,
    so it never changes the provider.  The choice is read back on the next
    visit. *)
Theorem provider_choice (s : State) (provider value : string) :
  (∀ p, provider_checked p (setting (handleProviderChange provider s)) = true
        ↔ p = provider) ∧
  (∀ p, key_input_shown p (handleProviderChange provider s) = true ↔ p = provider) ∧
  (∀ k, k ≠ "modelProvider" →
        setting (handleProviderChange provider s) !! k = setting s !! k) ∧
  (∀ k, setting (onInput_siliconflowAPIKey value s) !! k
        = if decide (k = "siliconflowAPIKey") then Some (Js.Str value)
          else setting s !! k) ∧
  (∀ k, setting (onInput_threeohtwoAPIKey value s) !! k
        = if decide (k = "threeohtwoAPIKey") then Some (Js.Str value)
          else setting s !! k) ∧
  (∀ k, setting (onInput_customRule value s) !! k
        = if decide (k = "customRule") then Some (Js.Str value)
          else setting s !! k) ∧
  (∀ p, provider_checked p
          (setting (loadSetting (next_visit (settingEffect (handleProviderChange provider s)))))
        = true ↔ p = provider).
Proof.
  assert (Hset : ∀ field k,
            Js.spread (setting s) {[ field := Js.Str value ]} !! k
            = if decide (k = field) then Some (Js.Str value) else setting s !! k).
  { intros field k. rewrite spread_lookup. destruct (decide (k = field)) as [->|N].
    - by rewrite lookup_singleton_eq.
    - by rewrite lookup_singleton_ne. }
  assert (Hp : setting (handleProviderChange provider s) !! "modelProvider"
               = Some (Js.Str provider)).
  { cbn. by rewrite spread_lookup, lookup_singleton_eq. }
  assert (Hchecked : ∀ st p, st !! "modelProvider" = Some (Js.Str provider) →
            provider_checked p st = true ↔ p = provider).
  { intros st p H. unfold provider_checked. rewrite bool_decide_eq_true, H.
    split; intros E; congruence. }
  split; [intros p; by apply Hchecked|]. split; [intros p; by apply Hchecked|].
  split; [|split; [|split; [|split]]].
  - intros k Hk. cbn. rewrite spread_lookup. by rewrite lookup_singleton_ne.
  - intros k. apply Hset.
  - intros k. apply Hset.
  - intros k. apply Hset.
  - intros p. apply Hchecked. cbn -[handleProviderChange].
    by rewrite spread_lookup, Hp.
Qed.
